(** * Bingo room server ([server.js]): room registry and session handlers

    A shallow embedding of the socket.io event handlers of [server.js]
    ([host:createRoom], [player:joinRoom], [player:saveCard],
    [host:drawNumber], [player:bingo], [disconnect]) as pure functions
    on an explicit server state, followed by the properties of the
    registry that the handlers maintain.

    Conventions of the embedding.
    - The process-wide object [rooms] is a finite map from room ids to
      [Room] records, and the handlers look a key up among the own
      properties of [rooms] and of [room.players].  In the code a lookup
      [o[k]] also finds the members of [Object.prototype]
      (["constructor"], ["__proto__"], ...): the embedding follows the
      code on the events that name none of them ([own_names]), and a
      statement that rests on a lookup finding nothing says so.
    - [room.players] is iterated by [Object.values], so it is kept as an
      insertion-ordered list of properties and [Object_values] implements
      the own-property order of ECMAScript.
    - A socket is identified by its [socket.id]; only the identity of an
      id is ever used, and a stored id is always truthy, so ids are
      numbers here.  [socket.data] is a finite map from socket ids.
    - A handler returns the new state and, in program order, the calls it
      made to the acknowledgement callback and to [io.to(..).emit(..)].
      Who receives an emit addressed to a room (the socket.io adapter and
      [socket.join]) is outside the model.
    - [Math.random] is an input of the handlers that call it.
    - Numbers are IEEE 754 binary64 values ([spec_float]); the handlers
      classify, compare and test them for equality, and
      [generateSecretKey] multiplies and adds them, rounding to nearest
      even.
    - Strings are sequences of code units below 256. *)

From Stdlib Require Import ZArith NArith List String Ascii SpecFloat SetoidList.
From stdpp Require Import gmap strings list fin_maps sorting pretty.

Open Scope string_scope.
Open Scope list_scope.

(** ** ECMAScript numbers, values and strings *)

Module JS.

(** A Number value. *)
Definition number : Type := spec_float.

Definition NaN : number := S754_nan.

(** The Number whose value is the integer [z], rounded to binary64. *)
Definition of_Z (z : Z) : number := binary_normalize 53 1024 z 0 false.

(** [x * y] and [x + y] on Numbers: the exact result rounded to
    nearest, ties to even. *)
Definition mul (x y : number) : number := SFmul 53 1024 x y.
Definition add (x y : number) : number := SFadd 53 1024 x y.

(** [Math.random()] when it draws [k / 2^53], for [k] below [2^53]:
    the engines return a multiple of [2^-53] in [0, 1). *)
Definition Math_random (k : N) : number :=
  binary_normalize 53 1024 (Z.of_N (k mod 2 ^ 53)) (-53) false.

(** [Number.isFinite(x)] for a Number [x]. *)
Definition isFinite (x : number) : bool :=
  match x with
  | S754_zero _ | S754_finite _ _ _ => true
  | S754_infinity _ | S754_nan => false
  end.

(** [x > y] on Numbers: false as soon as one side is NaN. *)
Definition gt (x y : number) : bool := SFltb y x.

(** The SameValueZero comparison used by [Array.prototype.includes]:
    IEEE equality (so [+0] and [-0] are the same), and NaN equal to itself. *)
Definition SameValueZero (x y : number) : bool :=
  match x, y with
  | S754_nan, S754_nan => true
  | _, _ => SFeqb x y
  end.

(** [l.includes(n)] *)
Definition includes (l : list number) (n : number) : bool :=
  existsb (fun x => SameValueZero x n) l.

(** The values a payload field can hold.  Arrays and plain objects are
    kept as their JSON text: the server stores them and hands them back,
    and never looks inside. *)
Inductive value : Type :=
| VUndefined
| VNull
| VBool (b : bool)
| VNum (n : number)
| VStr (s : string)
| VObj (json : string).

(** ToBoolean *)
Definition ToBoolean (v : value) : bool :=
  match v with
  | VUndefined | VNull => false
  | VBool b => b
  | VNum n =>
      match n with
      | S754_zero _ | S754_nan => false
      | _ => true
      end
  | VStr s => negb (String.eqb s "")
  | VObj _ => true
  end.

(** [a || b] *)
Definition or (a b : value) : value := if ToBoolean a then a else b.

(** WhiteSpace and LineTerminator code units below 256:
    TAB, LF, VT, FF, CR, SP and NBSP. *)
Definition is_white_space (c : ascii) : bool :=
  match nat_of_ascii c with
  | 9 | 10 | 11 | 12 | 13 | 32 | 160 => true
  | _ => false
  end.

Fixpoint trimStart (s : string) : string :=
  match s with
  | EmptyString => EmptyString
  | String c s' => if is_white_space c then trimStart s' else s
  end.

Fixpoint trimEnd (s : string) : string :=
  match s with
  | EmptyString => EmptyString
  | String c s' =>
      match trimEnd s' with
      | EmptyString => if is_white_space c then EmptyString else String c EmptyString
      | t => String c t
      end
  end.

(** [s.trim()] *)
Definition trim (s : string) : string := trimEnd (trimStart s).

(** Truthiness of a string: every string but the empty one. *)
Definition truthy (s : string) : bool := negb (String.eqb s "").

(** *** Objects used as dictionaries

    Own string-keyed properties in creation order.  Assigning to an
    existing key keeps its position; a new key goes last. *)
Definition object (A : Type) : Type := list (string * A).

Fixpoint get {A} (o : object A) (k : string) : option A :=
  match o with
  | [] => None
  | (k', v) :: o' => if String.eqb k' k then Some v else get o' k
  end.

Fixpoint set {A} (o : object A) (k : string) (v : A) : object A :=
  match o with
  | [] => [(k, v)]
  | (k', v') :: o' =>
      if String.eqb k' k then (k', v) :: o' else (k', v') :: set o' k v
  end.

Definition is_digit (c : ascii) : bool :=
  (48 <=? nat_of_ascii c)%nat && (nat_of_ascii c <=? 57)%nat.

Fixpoint digits_value (s : string) (acc : N) : option N :=
  match s with
  | EmptyString => Some acc
  | String c s' =>
      if is_digit c
      then digits_value s' (10 * acc + (N_of_ascii c - 48))%N
      else None
  end.

(** A property key is an array index when it is the canonical decimal
    text of an integer in [0, 2^32 - 2]. *)
Definition array_index (k : string) : option N :=
  match k with
  | EmptyString => None
  | String c rest =>
      if Ascii.eqb c "0" && truthy rest then None
      else match digits_value k 0 with
           | Some n => if (n <? 2 ^ 32 - 1)%N then Some n else None
           | None => None
           end
  end.

Definition index_le {A} (a b : N * A) : Prop := (a.1 ≤ b.1)%N.

#[global] Instance index_le_dec {A} (a b : N * A) : Decision (index_le a b) :=
  decide (a.1 ≤ b.1)%N.

(** The array-index properties of an object, tagged with their index. *)
Fixpoint indexed {A} (o : object A) : list (N * A) :=
  match o with
  | [] => []
  | (k, v) :: o' =>
      match array_index k with
      | Some i => (i, v) :: indexed o'
      | None => indexed o'
      end
  end.

(** The values of the other properties, in creation order. *)
Fixpoint named {A} (o : object A) : list A :=
  match o with
  | [] => []
  | (k, v) :: o' =>
      match array_index k with
      | Some _ => named o'
      | None => v :: named o'
      end
  end.

(** [Object.values(o)]: array-index keys in ascending numeric order,
    then the other keys in creation order. *)
Definition Object_values {A} (o : object A) : list A :=
  (merge_sort index_le (indexed o)).*2 ++ named o.

(** [n.toString()] for a non-negative integer Number. *)
Definition toString (n : N) : string := pretty n.

(** [Math.floor(x).toString()]: the decimal digits of the integer part,
    which [toString] prints in full below [10^21]. *)
Definition floor_toString (x : number) : string :=
  match x with
  | S754_nan => "NaN"
  | S754_infinity false => "Infinity"
  | S754_infinity true => "-Infinity"
  | S754_zero _ => "0"
  | S754_finite false m e => toString (Z.to_N (Z.shiftl (Zpos m) e))
  | S754_finite true m e =>
      String.append "-" (toString (Z.to_N (- Z.shiftl (Zneg m) e)))
  end.

(** The property names that every plain object inherits from
    [Object.prototype]: [o[k]] finds a value under them on an object
    that has no own property [k]. *)
Definition inherited (k : string) : bool :=
  existsb (String.eqb k)
    ["constructor"; "__proto__"; "hasOwnProperty"; "isPrototypeOf";
     "propertyIsEnumerable"; "toLocaleString"; "toString"; "valueOf";
     "__defineGetter__"; "__defineSetter__"; "__lookupGetter__";
     "__lookupSetter__"].

(** StringToNumber on the texts that, once trimmed, are empty or an
    unsigned run of decimal digits; every other text is sent to NaN,
    which is right only for the texts that are no numeric literal.
    The examples below run the handlers with it. *)
Definition StringToNumber_decimal (s : string) : number :=
  match digits_value (trim s) 0 with
  | Some n => of_Z (Z.of_N n)
  | None => NaN
  end.

(** [Number(o)] of a plain object, whose primitive value is the text
    ["[object Object]"], and of an array of two elements or more, whose
    primitive value has a comma: no numeric literal.  (An array of one
    element coerces as that element does, and the empty array to 0.)
    The examples below run the handlers with it. *)
Definition ObjectToNumber_plain (json : string) : number := NaN.

(** Two Numbers that [includes] does not tell apart. *)
Definition same_number (x y : number) : Prop := SameValueZero x y = true.

(** No two entries are the same Number. *)
Definition distinct (l : list number) : Prop := NoDupA same_number l.

(** [l'] is [l], or [l] with one Number that was not in it pushed. *)
Definition extends (l l' : list number) : Prop :=
  l' = l \/ exists n, includes l n = false /\ l' = l ++ [n].

(** *** Rounding to binary64

    [y] is [x] shifted right by [j] bits: the mantissa is divided, and
    nothing is recorded as lost when nothing was. *)
Definition shifted (j : Z) (x y : shr_record) : Prop :=
  shr_m y = (shr_m x / 2 ^ j)%Z /\
  ((shr_m x mod 2 ^ j)%Z = 0%Z -> shr_r x = false -> shr_s x = false ->
   shr_r y = false /\ shr_s y = false).

(** The binary64 value [q * 2^e'] is one of the two neighbours of
    [M * 2^E] on the grid of step [2^(E + n)], where [n] is the number of
    bits [M] has beyond 53, and it is [M * 2^E] when that is on the grid. *)
Definition rounds_to (M : positive) (E : Z) (q : positive) (e' : Z) : Prop :=
  let n := (Zpos (digits2_pos M) - 53)%Z in
  (E + n <= e')%Z /\
  (Zpos M / 2 ^ n <= Zpos q * 2 ^ (e' - (E + n)) <= Zpos M / 2 ^ n + 1)%Z /\
  ((Zpos M mod 2 ^ n)%Z = 0%Z ->
   (Zpos q * 2 ^ (e' - (E + n)))%Z = (Zpos M / 2 ^ n)%Z).

(** The value [m * 2^e] of a finite Number, on the integers: scaled by
    [2^200], which every exponent met in [generateSecretKey] exceeds. *)
Definition scaled (m : positive) (e : Z) : Z := (Zpos m * 2 ^ (e + 200))%Z.

End JS.

(** ** Data model *)

Abbreviation socket_id := N (only parsing).

(** [{ name, secretKey, socketId, cardNumbers }]; [socketId] is
    [None] while the player is offline. *)
Record Player : Type := mkPlayer {
  name : string;
  secretKey : string;
  socketId : option socket_id;
  cardNumbers : JS.value
}.

(** [rooms[roomId]]; [hostSocketId] is [None] while the host is away. *)
Record Room : Type := mkRoom {
  roomId : string;
  hostSocketId : option socket_id;
  minNumber : JS.number;
  maxNumber : JS.number;
  drawnNumbers : list JS.number;
  players : JS.object Player
}.

(** [socket.data.role] *)
Inductive role_t : Type := role_host | role_player.

(** [socket.data]: every field is undefined on a new socket. *)
Record socket_data : Type := mkData {
  role : option role_t;
  data_roomId : option string;
  data_secretKey : option string
}.

Definition no_data : socket_data :=
  {| role := None; data_roomId := None; data_secretKey := None |}.

Record state : Type := mkState {
  rooms : gmap string Room;
  sockets : gmap N socket_data
}.

(** The server right after start-up: [const rooms = {}], no socket. *)
Definition init : state := {| rooms := ∅; sockets := ∅ |}.

Definition data_of (st : state) (socket : socket_id) : socket_data :=
  default no_data (sockets st !! socket).

(** *** What a handler sends back *)

(** The six [message] texts of a negative acknowledgement. *)
Inductive error : Type :=
| InvalidRangeError          (* "数字範囲が不正です。" *)
| HostAlreadyPresentError    (* "このルームIDにはすでにホストがいます。" *)
| RoomNotFoundError          (* "そのルームは存在しません。" / "ルームが存在しません。" *)
| MissingNameError           (* "名前を入力してください。" *)
| NotHostError               (* "ホストではありません。" *)
| InvalidNumberError.        (* "数字が不正です。" *)

(** The [room] field of the acknowledgement of [player:joinRoom]. *)
Record room_summary : Type := mkSummary {
  summary_roomId : string;
  summary_minNumber : JS.number;
  summary_maxNumber : JS.number;
  summary_drawnNumbers : list JS.number
}.

(** The argument of the acknowledgement callback. *)
Inductive ack : Type :=
| Fail (message : option error)                 (* { ok: false, message } or { ok: false } *)
| Ok                                            (* { ok: true } *)
| OkRoom (rejoin : bool) (room : Room)          (* { ok: true, rejoin, room } *)
| OkJoin (name : string) (secretKey : string) (rejoin : bool)
         (cardNumbers : JS.value) (room : room_summary).

(** The address of [io.to(..)]: a socket id or a room id. *)
Inductive target : Type :=
| to_socket (id : socket_id)
| to_room (roomId : string).

Inductive message : Type :=
| room_playersUpdate (names : list string)                           (* "room:playersUpdate" *)
| number_drawn (number : JS.number) (drawnNumbers : list JS.number)  (* "number:drawn" *)
| player_bingo_report (name : option string).                        (* "player:bingo" *)

Inductive effect : Type :=
| Callback (a : ack)
| Emit (t : target) (m : message).

(** [if (callback) callback(a)] *)
Definition callback_if (callback : bool) (a : ack) : list effect :=
  if callback then [Callback a] else [].

(** *** Events received on a socket

    [random] is what [Math.random()] returns in a handler that calls it:
    the base-36 digits after ["0."] of its [toString(36)] for
    [host:createRoom], and the numerator [k] of the draw [k / 2^53]
    for [player:joinRoom].  [callback] tells whether the
    client passed an acknowledgement callback; [host:createRoom] and
    [player:joinRoom] call it unconditionally and are modelled for
    clients that pass one. *)
Inductive event : Type :=
| HostCreateRoom (roomId : option string) (minNumber maxNumber : JS.value)
                 (random : list N)
| PlayerJoinRoom (roomId : string) (name : option string)
                 (secretKey : option string) (random : N)
| PlayerSaveCard (roomId secretKey : string) (cardNumbers : JS.value)
                 (callback : bool)
| HostDrawNumber (roomId : string) (number : JS.value) (callback : bool)
| PlayerBingo (roomId : string) (name : option string)
| Disconnect.

(** ** Helpers of [server.js] *)

(** [Math.floor(1000 + Math.random() * 9000).toString()], the product
    and the sum each rounded to binary64. *)
Definition generateSecretKey (random : N) : string :=
  JS.floor_toString
    (JS.add (JS.of_Z 1000) (JS.mul (JS.Math_random random) (JS.of_Z 9000))).

Definition digit36 (d : N) : ascii :=
  nth (N.to_nat (d mod 36))
      (list_ascii_of_string "0123456789abcdefghijklmnopqrstuvwxyz") "0"%char.

(** [Math.random().toString(36)]: ["0"] when the draw is zero. *)
Definition random_toString36 (digits : list N) : string :=
  match digits with
  | [] => "0"
  | _ => String.append "0." (string_of_list_ascii (map digit36 digits))
  end.

(** [s.slice(b, e)] for [0 <= b <= e] *)
Definition slice (s : string) (b e : nat) : string := substring b (e - b) s.

(** [Math.random().toString(36).slice(2, 8)] *)
Definition random_roomId (digits : list N) : string :=
  slice (random_toString36 digits) 2 8.

Definition online (p : Player) : bool :=
  match socketId p with Some _ => true | None => false end.

(** The names [emitPlayersUpdate] sends: online players only. *)
Definition online_names (ps : JS.object Player) : list string :=
  map name (List.filter online (JS.Object_values ps)).

Definition emitPlayersUpdate (rooms : gmap string Room) (roomId : string)
  : list effect :=
  match rooms !! roomId with
  | None => []
  | Some room =>
      match hostSocketId room with
      | None => []
      | Some h => [Emit (to_socket h) (room_playersUpdate (online_names (players room)))]
      end
  end.

(** [(roomId && roomId.trim()) || null] *)
Definition inputId_of (roomId : option string) : option string :=
  match roomId with
  | None => None
  | Some s =>
      if JS.truthy s
      then (if JS.truthy (JS.trim s) then Some (JS.trim s) else None)
      else None
  end.

(** [!name || !name.trim()] fails: the name to use. *)
Definition name_given (name : option string) : option string :=
  match name with
  | None => None
  | Some s => if JS.truthy s && JS.truthy (JS.trim s) then Some s else None
  end.

(** [let key = (secretKey || "").trim(); if (!key) key = generateSecretKey();] *)
Definition key_of (secretKey : option string) (random : N) : string :=
  let key := JS.trim (match secretKey with
                      | Some s => if JS.truthy s then s else ""
                      | None => ""
                      end) in
  if JS.truthy key then key else generateSecretKey random.

Definition set_host (room : Room) (h : option socket_id) : Room :=
  {| roomId := roomId room; hostSocketId := h;
     minNumber := minNumber room; maxNumber := maxNumber room;
     drawnNumbers := drawnNumbers room; players := players room |}.

Definition set_range (room : Room) (min max : JS.number) : Room :=
  {| roomId := roomId room; hostSocketId := hostSocketId room;
     minNumber := min; maxNumber := max;
     drawnNumbers := drawnNumbers room; players := players room |}.

Definition set_drawnNumbers (room : Room) (l : list JS.number) : Room :=
  {| roomId := roomId room; hostSocketId := hostSocketId room;
     minNumber := minNumber room; maxNumber := maxNumber room;
     drawnNumbers := l; players := players room |}.

Definition set_players (room : Room) (ps : JS.object Player) : Room :=
  {| roomId := roomId room; hostSocketId := hostSocketId room;
     minNumber := minNumber room; maxNumber := maxNumber room;
     drawnNumbers := drawnNumbers room; players := ps |}.

Definition set_socketId (p : Player) (s : option socket_id) : Player :=
  {| name := name p; secretKey := secretKey p; socketId := s;
     cardNumbers := cardNumbers p |}.

Definition set_name (p : Player) (n : string) : Player :=
  {| name := n; secretKey := secretKey p; socketId := socketId p;
     cardNumbers := cardNumbers p |}.

Definition set_cardNumbers (p : Player) (c : JS.value) : Player :=
  {| name := name p; secretKey := secretKey p; socketId := socketId p;
     cardNumbers := c |}.

(** [socket.data.role = r; socket.data.roomId = id;] *)
Definition set_role (d : socket_data) (r : role_t) (id : string) : socket_data :=
  {| role := Some r; data_roomId := Some id; data_secretKey := data_secretKey d |}.

(** [summary] of a room as sent to a joining player. *)
Definition summary_of (roomId : string) (room : Room) : room_summary :=
  {| summary_roomId := roomId;
     summary_minNumber := minNumber room;
     summary_maxNumber := maxNumber room;
     summary_drawnNumbers := drawnNumbers room |}.

(** ** The handlers

    [rooms[id]] and [room.players[key]] are looked up among the own
    properties, which is what the code finds for every name that is no
    member of [Object.prototype] ([JS.inherited], [own_names]). *)

Section Server.

(** [Number(..)] applied to a string and to an array or plain object
    (through its primitive value): the numeric-literal grammar and the
    decimal-to-binary64 conversion of the engine, taken as given. *)
Variable StringToNumber : string -> JS.number.
Variable ObjectToNumber : string -> JS.number.

(** [Number(v)] *)
Definition Number (v : JS.value) : JS.number :=
  match v with
  | JS.VUndefined => JS.NaN
  | JS.VNull => S754_zero false
  | JS.VBool b => if b then JS.of_Z 1 else S754_zero false
  | JS.VNum n => n
  | JS.VStr s => StringToNumber s
  | JS.VObj o => ObjectToNumber o
  end.

(** [!Number.isFinite(min) || !Number.isFinite(max) || min > max] *)
Definition invalid_range (min max : JS.number) : bool :=
  negb (JS.isFinite min) || negb (JS.isFinite max) || JS.gt min max.

(** [socket.on("host:createRoom", (data, callback) => ...)] *)
Definition host_createRoom (st : state) (socket : socket_id)
    (roomId : option string) (minNumber maxNumber : JS.value)
    (random : list N) : state * list effect :=
  let inputId := inputId_of roomId in
  let min := Number minNumber in
  let max := Number maxNumber in
  let create (id : string) : state * list effect :=
    let room := {| roomId := id; hostSocketId := Some socket;
                   minNumber := min; maxNumber := max;
                   drawnNumbers := []; players := [] |} in
    ({| rooms := <[id := room]> (rooms st);
        sockets := <[socket := set_role (data_of st socket) role_host id]> (sockets st) |},
     [Callback (OkRoom false room)]) in
  if invalid_range min max then
    (st, [Callback (Fail (Some InvalidRangeError))])
  else
    match inputId with
    | Some id =>
        match rooms st !! id with
        | Some room =>
            match hostSocketId room with
            | Some _ => (st, [Callback (Fail (Some HostAlreadyPresentError))])
            | None =>
                let room' := set_range (set_host room (Some socket)) min max in
                let rooms' := <[id := room']> (rooms st) in
                ({| rooms := rooms';
                    sockets := <[socket := set_role (data_of st socket) role_host id]> (sockets st) |},
                 emitPlayersUpdate rooms' id ++ [Callback (OkRoom true room')])
            end
        | None => create id
        end
    | None => create (random_roomId random)
    end.

(** [socket.on("player:joinRoom", (data, callback) => ...)] *)
Definition player_joinRoom (st : state) (socket : socket_id)
    (roomId : string) (name : option string) (secretKey : option string)
    (random : N) : state * list effect :=
  match rooms st !! roomId with
  | None => (st, [Callback (Fail (Some RoomNotFoundError))])
  | Some room =>
      match name_given name with
      | None => (st, [Callback (Fail (Some MissingNameError))])
      | Some name =>
          let key := key_of secretKey random in
          let existed := bool_decide (is_Some (JS.get (players room) key)) in
          let player :=
            default (mkPlayer name key None JS.VNull) (JS.get (players room) key) in
          let player := set_socketId (set_name player name) (Some socket) in
          let room' := set_players room (JS.set (players room) key player) in
          let rooms' := <[roomId := room']> (rooms st) in
          ({| rooms := rooms';
              sockets := <[socket := {| role := Some role_player;
                                        data_roomId := Some roomId;
                                        data_secretKey := Some key |}]> (sockets st) |},
           emitPlayersUpdate rooms' roomId ++
           [Callback (OkJoin name key existed
                             (JS.or (cardNumbers player) JS.VNull)
                             (summary_of roomId room'))])
      end
  end.

(** [socket.on("player:saveCard", (data, callback) => ...)] *)
Definition player_saveCard (st : state) (roomId secretKey : string)
    (cardNumbers : JS.value) (callback : bool) : state * list effect :=
  match rooms st !! roomId with
  | None => (st, callback_if callback (Fail None))
  | Some room =>
      match JS.get (players room) secretKey with
      | None => (st, callback_if callback (Fail None))
      | Some p =>
          let room' := set_players room
                         (JS.set (players room) secretKey (set_cardNumbers p cardNumbers)) in
          ({| rooms := <[roomId := room']> (rooms st); sockets := sockets st |},
           callback_if callback Ok)
      end
  end.

(** [socket.on("host:drawNumber", (data, callback) => ...)] *)
Definition host_drawNumber (st : state) (socket : socket_id)
    (roomId : string) (number : JS.value) (callback : bool)
  : state * list effect :=
  match rooms st !! roomId with
  | None => (st, callback_if callback (Fail (Some RoomNotFoundError)))
  | Some room =>
      if negb (bool_decide (Some socket = hostSocketId room)) then
        (st, callback_if callback (Fail (Some NotHostError)))
      else
        let n := Number number in
        if negb (JS.isFinite n) then
          (st, callback_if callback (Fail (Some InvalidNumberError)))
        else
          let drawn := if negb (JS.includes (drawnNumbers room) n)
                       then drawnNumbers room ++ [n]
                       else drawnNumbers room in
          ({| rooms := <[roomId := set_drawnNumbers room drawn]> (rooms st);
              sockets := sockets st |},
           Emit (to_room roomId) (number_drawn n drawn) :: callback_if callback Ok)
  end.

(** [socket.on("player:bingo", (data) => ...)] *)
Definition player_bingo (st : state) (roomId : string) (name : option string)
  : state * list effect :=
  match rooms st !! roomId with
  | None => (st, [])
  | Some room =>
      match hostSocketId room with
      | None => (st, [])
      | Some h => (st, [Emit (to_socket h) (player_bingo_report name)])
      end
  end.

(** [socket.on("disconnect", () => ...)] *)
Definition disconnect (st : state) (socket : socket_id) : state * list effect :=
  let d := data_of st socket in
  match role d, data_roomId d with
  | Some r, Some roomId =>
      if negb (JS.truthy roomId) then (st, [])
      else
        match rooms st !! roomId with
        | None => (st, [])
        | Some room =>
            match r with
            | role_host =>
                ({| rooms := <[roomId := set_host room None]> (rooms st);
                    sockets := sockets st |}, [])
            | role_player =>
                let secretKey := default "undefined" (data_secretKey d) in
                let rooms' :=
                  match JS.get (players room) secretKey with
                  | Some p =>
                      <[roomId := set_players room
                                    (JS.set (players room) secretKey (set_socketId p None))]>
                        (rooms st)
                  | None => rooms st
                  end in
                ({| rooms := rooms'; sockets := sockets st |},
                 emitPlayersUpdate rooms' roomId)
            end
        end
  | _, _ => (st, [])
  end.

(** One event received on [socket]. *)
Definition step (st : state) (socket : socket_id) (ev : event)
  : state * list effect :=
  match ev with
  | HostCreateRoom roomId minNumber maxNumber random =>
      host_createRoom st socket roomId minNumber maxNumber random
  | PlayerJoinRoom roomId name secretKey random =>
      player_joinRoom st socket roomId name secretKey random
  | PlayerSaveCard roomId secretKey cardNumbers callback =>
      player_saveCard st roomId secretKey cardNumbers callback
  | HostDrawNumber roomId number callback =>
      host_drawNumber st socket roomId number callback
  | PlayerBingo roomId name => player_bingo st roomId name
  | Disconnect => disconnect st socket
  end.

(** The states the server can be in: [init] and whatever a handler
    leaves behind. *)
Inductive reachable : state -> Prop :=
| reachable_init : reachable init
| reachable_step st socket ev :
    reachable st -> reachable (step st socket ev).1.

(** The state after a sequence of events, each with its socket. *)
Definition run (st : state) (evs : list (socket_id * event)) : state :=
  fold_left (fun st e => (step st e.1 e.2).1) evs st.

(** The text is empty or starts with a code unit that [trim] keeps. *)
Definition starts_clean (s : string) : Prop :=
  match s with
  | EmptyString => True
  | String c _ => JS.is_white_space c = false
  end.

(** No code unit of the text is white space. *)
Fixpoint no_white_space (s : string) : Prop :=
  match s with
  | EmptyString => True
  | String c s' => JS.is_white_space c = false /\ no_white_space s'
  end.

(** One of the characters [0-9a-z]. *)
Definition base36 (c : ascii) : bool :=
  existsb (Ascii.eqb c) (list_ascii_of_string "0123456789abcdefghijklmnopqrstuvwxyz").


(** [host:createRoom] without a room id draws an id that is already
    taken: the handler then stores a new room under it. *)
Definition generated_id_taken (st : state) (ev : event) : Prop :=
  match ev with
  | HostCreateRoom roomId _ _ random =>
      inputId_of roomId = None /\ is_Some (rooms st !! random_roomId random)
  | _ => False
  end.

(** No event of the sequence is a [host:createRoom] whose generated id
    is taken in the state it arrives in. *)
Fixpoint collision_free (st : state) (evs : list (N * event)) : Prop :=
  match evs with
  | [] => True
  | e :: evs' =>
      ~ generated_id_taken st e.2 /\ collision_free (step st e.1 e.2).1 evs'
  end.

(** No event of the sequence hits a taken room id or is a
    [player:saveCard] for the given room and key. *)
Fixpoint card_untouched (st : state) (rid key : string)
    (evs : list (N * event)) : Prop :=
  match evs with
  | [] => True
  | e :: evs' =>
      ~ generated_id_taken st e.2 /\
      (forall c cb, e.2 <> PlayerSaveCard rid key c cb) /\
      card_untouched (step st e.1 e.2).1 rid key evs'
  end.

(** The room an event names: the resolved or generated id for
    [host:createRoom], the [roomId] of the payload for the player and
    draw events, [socket.data.roomId] for [disconnect]. *)
Definition event_room (st : state) (socket : socket_id) (ev : event)
  : option string :=
  match ev with
  | HostCreateRoom roomId _ _ random =>
      Some (default (random_roomId random) (inputId_of roomId))
  | PlayerJoinRoom roomId _ _ _ => Some roomId
  | PlayerSaveCard roomId _ _ _ => Some roomId
  | HostDrawNumber roomId _ _ => Some roomId
  | PlayerBingo roomId _ => Some roomId
  | Disconnect => data_roomId (data_of st socket)
  end.

(** No name that the handler of the event looks up, in [rooms] or in a
    room's [players], is a member of [Object.prototype].  On such an
    event the own-property lookups of the handlers above are the lookups
    of the code.  A generated room id is assigned, not looked up, and a
    generated key never is such a name. *)
Definition own_names (st : state) (socket : socket_id) (ev : event) : bool :=
  match ev with
  | HostCreateRoom roomId _ _ _ =>
      match inputId_of roomId with
      | Some id => negb (JS.inherited id)
      | None => true
      end
  | PlayerJoinRoom roomId _ secretKey random =>
      negb (JS.inherited roomId) && negb (JS.inherited (key_of secretKey random))
  | PlayerSaveCard roomId secretKey _ _ =>
      negb (JS.inherited roomId) && negb (JS.inherited secretKey)
  | HostDrawNumber roomId _ _ => negb (JS.inherited roomId)
  | PlayerBingo roomId _ => negb (JS.inherited roomId)
  | Disconnect =>
      let d := data_of st socket in
      negb (JS.inherited (default "" (data_roomId d))) &&
      negb (JS.inherited (default "undefined" (data_secretKey d)))
  end.

(** The states the server reaches through events that name no member
    of [Object.prototype]. *)
Inductive reachable_own : state -> Prop :=
| reachable_own_init : reachable_own init
| reachable_own_step st socket ev :
    reachable_own st -> own_names st socket ev = true ->
    reachable_own (step st socket ev).1.

(** Every event of the sequence names no member of [Object.prototype]
    in the state it arrives in. *)
Fixpoint all_own (st : state) (evs : list (N * event)) : bool :=
  match evs with
  | [] => true
  | e :: evs' => own_names st e.1 e.2 && all_own (step st e.1 e.2).1 evs'
  end.

(** [host:createRoom] without a room id and with a valid range draws
    [rid] as id: the handler stores a new room under [rid], over the
    room that was there. *)
Definition replaces_room (rid : string) (ev : event) : Prop :=
  match ev with
  | HostCreateRoom roomId mn mx random =>
      inputId_of roomId = None /\
      invalid_range (Number mn) (Number mx) = false /\
      random_roomId random = rid
  | _ => False
  end.

(** The event replaces room [rid] while that room has drawn numbers. *)
Definition loses_history (st : state) (rid : string) (ev : event) : Prop :=
  replaces_room rid ev /\
  exists r, rooms st !! rid = Some r /\ drawnNumbers r <> [].

(** No event of the sequence replaces room [rid] while it has drawn
    numbers. *)
Fixpoint history_kept (st : state) (rid : string) (evs : list (N * event))
  : Prop :=
  match evs with
  | [] => True
  | e :: evs' =>
      ~ loses_history st rid e.2 /\ history_kept (step st e.1 e.2).1 rid evs'
  end.

(** ** Scenarios used by the examples

    Socket 1 creates room ["R1"] with range [1, 75]; socket 2 joins as
    Alice without a key while [Math.random()] returns 0.5, which gives
    her the key ["5500"]; she saves a card; the host draws 17. *)
Definition half : N := 2 ^ 52.

Definition card_Alice : JS.value := JS.VObj "[[5,17,42],[8,23,61],[11,30,75]]".

Definition scenario_R1 : list (N * event) :=
  [(1%N, HostCreateRoom (Some "R1") (JS.VNum (JS.of_Z 1)) (JS.VNum (JS.of_Z 75)) []);
   (2%N, PlayerJoinRoom "R1" (Some "Alice") None half);
   (2%N, PlayerSaveCard "R1" "5500" card_Alice true);
   (1%N, HostDrawNumber "R1" (JS.VNum (JS.of_Z 17)) true)].

Definition Alice (socket : option N) : Player :=
  {| name := "Alice"; secretKey := "5500"; socketId := socket;
     cardNumbers := card_Alice |}.

(** Room ["R1"] at the end of [scenario_R1], with the given host. *)
Definition room_R1 (h : option N) : Room :=
  {| roomId := "R1"; hostSocketId := h;
     minNumber := JS.of_Z 1; maxNumber := JS.of_Z 75;
     drawnNumbers := [JS.of_Z 17];
     players := [("5500", Alice (Some 2%N))] |}.

(** Socket 1 creates room ["abc123"] and draws 17.  Socket 2 then asks
    for a room without naming one, and [Math.random().toString(36)] is
    ["0.abc1237k5x9"]. *)
Definition scenario_abc123 : list (N * event) :=
  [(1%N, HostCreateRoom (Some "abc123") (JS.VNum (JS.of_Z 1)) (JS.VNum (JS.of_Z 75)) []);
   (1%N, HostDrawNumber "abc123" (JS.VNum (JS.of_Z 17)) true)].

Definition create_unnamed : event :=
  HostCreateRoom None (JS.VNum (JS.of_Z 1)) (JS.VNum (JS.of_Z 75))
                 [10; 11; 12; 1; 2; 3; 7; 20; 5; 33; 9]%N.

(** Socket 1 asks for a room without naming one while [Math.random()]
    returns 0, whose [toString(36)] is ["0"]: the room gets the empty
    id.  Socket 2 joins it as Alice, with the generated key ["5500"]. *)
Definition scenario_empty_id : list (N * event) :=
  [(1%N, HostCreateRoom None (JS.VNum (JS.of_Z 1)) (JS.VNum (JS.of_Z 75)) []);
   (2%N, PlayerJoinRoom "" (Some "Alice") None half)].

(** ** Numbers and dictionaries *)

Lemma SameValueZero_spec x y :
  JS.SameValueZero x y = true <->
  x = y \/ exists s s', x = S754_zero s /\ y = S754_zero s'.
Proof.
  split.
  - destruct x as [s| s | |s m e], y as [s'|s'| |s' m' e']; cbn;
      try discriminate; try (intros _; left; reflexivity);
      try (intros _; right; eauto; fail);
      destruct s, s'; cbn; try discriminate; try (intros _; left; reflexivity).
    all: destruct (Z.compare_spec e e') as [->| |]; try discriminate.
    all: change (PosDef.Pos.compare_cont Eq m m') with (Pos.compare m m').
    all: destruct (Pos.compare_spec m m') as [->| |]; cbn; try discriminate; auto.
  - intros [->|(s & s' & -> & ->)]; [|reflexivity].
    destruct y as [s| s | |s m e]; cbn; try reflexivity.
    + destruct s; reflexivity.
    + rewrite Z.compare_refl.
      change (PosDef.Pos.compare_cont Eq m m) with (Pos.compare m m).
      rewrite Pos.compare_refl. destruct s; reflexivity.
Qed.

Lemma same_number_refl x : JS.same_number x x.
Proof. apply SameValueZero_spec. auto. Qed.

Lemma same_number_sym x y : JS.same_number x y -> JS.same_number y x.
Proof.
  unfold JS.same_number. rewrite !SameValueZero_spec.
  intros [->|(s & s' & -> & ->)]; eauto.
Qed.

Lemma same_number_trans x y z :
  JS.same_number x y -> JS.same_number y z -> JS.same_number x z.
Proof.
  unfold JS.same_number. rewrite !SameValueZero_spec.
  intros [E1|(s & s' & E1 & E1')] [E2|(t & t' & E2 & E2')]; subst; eauto.
Qed.

#[local] Instance same_number_equiv : Equivalence JS.same_number.
Proof.
  split; [exact same_number_refl | exact same_number_sym | exact same_number_trans].
Qed.

Lemma includes_InA l n : JS.includes l n = true <-> InA JS.same_number n l.
Proof.
  unfold JS.includes. rewrite existsb_exists, InA_alt. split.
  - intros (x & Hx & E). exists x. split; [apply same_number_sym; exact E | exact Hx].
  - intros (x & E & Hx). exists x. split; [exact Hx | apply same_number_sym; exact E].
Qed.

Lemma includes_false_not_In l n : JS.includes l n = false -> ~ In n l.
Proof.
  intros E Hin. assert (JS.includes l n = true) as E'; [|congruence].
  apply includes_InA, InA_alt. exists n. split; [apply same_number_refl | exact Hin].
Qed.

Lemma distinct_NoDup l : JS.distinct l -> List.NoDup l.
Proof.
  induction 1 as [|x l Hx _ IH]; constructor; [|exact IH].
  intros Hin. apply Hx, InA_alt. exists x. split; [apply same_number_refl | exact Hin].
Qed.

Lemma distinct_push l n :
  JS.distinct l -> JS.includes l n = false -> JS.distinct (l ++ [n]).
Proof.
  intros Hl Hn. apply NoDupA_app; [typeclasses eauto | exact Hl | |].
  - constructor; [|constructor]. intros H; inversion H.
  - intros x Hx Hx'. inversion Hx' as [? ? E|? ? H']; subst; [|inversion H'].
    assert (JS.includes l n = true) as E'; [|congruence].
    apply includes_InA. rewrite <- E. exact Hx.
Qed.

Lemma distinct_extends l l' : JS.distinct l -> JS.extends l l' -> JS.distinct l'.
Proof.
  intros Hl [->|(n & Hn & ->)]; [exact Hl | apply distinct_push; assumption].
Qed.

Lemma extends_refl l : JS.extends l l.
Proof. left. reflexivity. Qed.

Lemma get_set_eq {A} (o : JS.object A) k v : JS.get (JS.set o k v) k = Some v.
Proof.
  induction o as [|[k' v'] o IH]; cbn.
  - rewrite String.eqb_refl. reflexivity.
  - destruct (String.eqb k' k) eqn:E; cbn; rewrite E; [reflexivity | exact IH].
Qed.

Lemma get_set_ne {A} (o : JS.object A) k k' v :
  k <> k' -> JS.get (JS.set o k v) k' = JS.get o k'.
Proof.
  intros Hne. induction o as [|[k0 v0] o IH]; cbn.
  - destruct (String.eqb k k') eqn:E; [apply String.eqb_eq in E; contradiction | reflexivity].
  - destruct (String.eqb k0 k) eqn:E; cbn.
    + apply String.eqb_eq in E. subst k0.
      destruct (String.eqb k k') eqn:E'; [apply String.eqb_eq in E'; contradiction | reflexivity].
    + rewrite IH. reflexivity.
Qed.

(** Assigning to an existing key creates no property. *)
Lemma keys_set_existing {A} (o : JS.object A) k v :
  is_Some (JS.get o k) -> (JS.set o k v).*1 = o.*1.
Proof.
  induction o as [|[k' v'] o IH]; cbn.
  - intros [? ?]; discriminate.
  - destruct (String.eqb k' k) eqn:E; cbn; [reflexivity|].
    intros H. rewrite (IH H). reflexivity.
Qed.

(** Assigning to a new key creates one property, after the others. *)
Lemma set_new {A} (o : JS.object A) k v :
  JS.get o k = None -> JS.set o k v = o ++ [(k, v)].
Proof.
  induction o as [|[k' v'] o IH]; cbn; [reflexivity|].
  destruct (String.eqb k' k) eqn:E; [discriminate|].
  intros H. rewrite (IH H). reflexivity.
Qed.

Lemma truthy_true s : JS.truthy s = true <-> s <> "".
Proof. unfold JS.truthy. rewrite negb_true_iff. apply String.eqb_neq. Qed.

Lemma truthy_false s : JS.truthy s = false <-> s = "".
Proof. unfold JS.truthy. rewrite negb_false_iff. apply String.eqb_eq. Qed.

(** *** Trimming *)

Lemma trimStart_clean s : starts_clean (JS.trimStart s).
Proof.
  induction s as [|c s IH]; cbn; [exact I|].
  destruct (JS.is_white_space c) eqn:E; [exact IH | exact E].
Qed.

Lemma trimStart_id s : starts_clean s -> JS.trimStart s = s.
Proof. destruct s as [|c s]; cbn; [reflexivity|]. intros ->. reflexivity. Qed.

Lemma trimEnd_clean s : starts_clean s -> starts_clean (JS.trimEnd s).
Proof.
  destruct s as [|c s]; cbn; [intros _; exact I|]. intros E.
  destruct (JS.trimEnd s); [rewrite E|]; exact E.
Qed.

Lemma trimEnd_idem s : JS.trimEnd (JS.trimEnd s) = JS.trimEnd s.
Proof.
  induction s as [|c s IH]; cbn; [reflexivity|].
  destruct (JS.trimEnd s) as [|c' t] eqn:E.
  - destruct (JS.is_white_space c) eqn:Ec; cbn; [reflexivity|]. rewrite Ec. reflexivity.
  - change (JS.trimEnd (String c (String c' t)))
      with (match JS.trimEnd (String c' t) with
            | EmptyString =>
                if JS.is_white_space c then EmptyString else String c EmptyString
            | String a u => String c (String a u)
            end).
    rewrite IH. reflexivity.
Qed.

Lemma trim_idem s : JS.trim (JS.trim s) = JS.trim s.
Proof.
  unfold JS.trim.
  rewrite (trimStart_id (JS.trimEnd (JS.trimStart s)))
    by apply trimEnd_clean, trimStart_clean.
  apply trimEnd_idem.
Qed.

Lemma trimEnd_no_white_space s : no_white_space s -> JS.trimEnd s = s.
Proof.
  induction s as [|c s IH]; cbn; [reflexivity|]. intros [Ec Hs].
  rewrite (IH Hs). destruct s; [rewrite Ec|]; reflexivity.
Qed.

Lemma trim_no_white_space s : no_white_space s -> JS.trim s = s.
Proof.
  intros H. unfold JS.trim. rewrite trimStart_id.
  - apply trimEnd_no_white_space, H.
  - destruct s; [exact I | apply H].
Qed.

Lemma substring_no_white_space n m s :
  no_white_space s -> no_white_space (substring n m s).
Proof.
  revert n m. induction s as [|c s IH]; intros n m H.
  - destruct n, m; exact I.
  - destruct H as [Hc Hs]. destruct n as [|n]; cbn.
    + destruct m as [|m]; [exact I|]. split; [exact Hc | apply IH, Hs].
    + apply IH, Hs.
Qed.

Lemma digit36_not_white_space d : JS.is_white_space (digit36 d) = false.
Proof.
  unfold digit36. generalize (N.to_nat (d mod 36)). intros n.
  do 37 (destruct n as [|n]; [reflexivity|]). reflexivity.
Qed.

(** A generated room id has no white space: trimming leaves it alone. *)
Lemma random_roomId_trimmed digits :
  JS.trim (random_roomId digits) = random_roomId digits.
Proof.
  apply trim_no_white_space. unfold random_roomId, slice.
  apply substring_no_white_space. unfold random_toString36.
  destruct digits as [|d ds]; [cbn; auto|].
  cbn [String.append]. split; [reflexivity|]. split; [reflexivity|].
  generalize (d :: ds). intros l. induction l as [|x l IH]; cbn; [exact I|].
  split; [apply digit36_not_white_space | exact IH].
Qed.

(** The id that [host:createRoom] resolves is what it would resolve
    again when sent back as it is. *)
Lemma inputId_of_fixpoint requested id :
  inputId_of requested = Some id -> JS.trim id = id /\ id <> "".
Proof.
  unfold inputId_of. destruct requested as [s|]; [|discriminate].
  destruct (JS.truthy s); [|discriminate].
  destruct (JS.truthy (JS.trim s)) eqn:E; [|discriminate].
  intros [= <-]. split; [apply trim_idem | apply truthy_true, E].
Qed.

Lemma inputId_of_trimmed id :
  JS.trim id = id -> id <> "" -> inputId_of (Some id) = Some id.
Proof.
  intros Ht Hne. unfold inputId_of. rewrite Ht.
  apply truthy_true in Hne. rewrite Hne. reflexivity.
Qed.

(** ** Frame properties of one step *)

Ltac split_lookup rid :=
  match goal with
  | |- context [<[?k := _]> _ !! rid] =>
      destruct (decide (k = rid)) as [Hk|Hk];
      [rewrite Hk, lookup_insert_eq | rewrite lookup_insert_ne by exact Hk]
  | H : context [<[?k := _]> _ !! rid] |- _ =>
      destruct (decide (k = rid)) as [Hk|Hk];
      [rewrite Hk, lookup_insert_eq in H | rewrite lookup_insert_ne in H by exact Hk]
  end.

Ltac unfold_handlers :=
  unfold step, host_createRoom, player_joinRoom, player_saveCard,
    host_drawNumber, player_bingo, disconnect.

(** A room that exists keeps existing, and its draw history is kept or
    grows by one new Number, unless the event replaces the room. *)
Lemma step_drawnNumbers st socket ev rid r :
  rooms st !! rid = Some r ->
  ~ replaces_room rid ev ->
  exists r', rooms (step st socket ev).1 !! rid = Some r' /\
             JS.extends (drawnNumbers r) (drawnNumbers r').
Proof.
  intros Hr Hfresh.
  destruct ev; unfold_handlers; repeat case_match; cbn [fst rooms];
    try (exists r; split; [assumption | apply extends_refl]);
    try split_lookup rid; simplify_eq;
    try (eexists; split; [first [eassumption | reflexivity] | cbn; try apply extends_refl]).
  - exfalso. apply Hfresh. cbn. auto.
  - right. eexists. split; [|reflexivity].
    match goal with H : negb _ = true |- _ => apply negb_true_iff in H; exact H end.
Qed.

(** An event that replaces a room leaves a room without draw under its
    id. *)
Lemma step_replaces st socket ev rid :
  replaces_room rid ev ->
  exists r', rooms (step st socket ev).1 !! rid = Some r' /\ drawnNumbers r' = [].
Proof.
  destruct ev; cbn [replaces_room]; try contradiction.
  intros (Hid & Hv & <-). unfold_handlers. rewrite Hid, Hv. cbn [fst rooms].
  eexists. split; [apply lookup_insert_eq | reflexivity].
Qed.

Lemma replaces_room_dec rid ev : replaces_room rid ev \/ ~ replaces_room rid ev.
Proof.
  destruct ev; cbn [replaces_room]; try (right; tauto).
  destruct (inputId_of roomId0) as [i|]; [right; intros [? _]; discriminate|].
  destruct (invalid_range (Number minNumber0) (Number maxNumber0));
    [right; intros (_ & ? & _); discriminate|].
  destruct (decide (random_roomId random = rid)) as [E|E]; [left; auto|].
  right. intros (_ & _ & ?). contradiction.
Qed.

(** The draw history is kept or grows by one new Number unless the
    event replaces the room while it has drawn numbers. *)
Lemma step_history_kept st socket ev rid r :
  rooms st !! rid = Some r ->
  ~ loses_history st rid ev ->
  exists r', rooms (step st socket ev).1 !! rid = Some r' /\
             JS.extends (drawnNumbers r) (drawnNumbers r').
Proof.
  intros Hr Hkept. destruct (replaces_room_dec rid ev) as [Hrep|Hrep].
  - destruct (step_replaces st socket ev rid Hrep) as (r' & Hr' & Hnil).
    exists r'. split; [exact Hr'|]. left. rewrite Hnil.
    destruct (drawnNumbers r) as [|n l] eqn:E; [reflexivity|].
    exfalso. apply Hkept. split; [exact Hrep|]. exists r.
    split; [exact Hr | rewrite E; discriminate].
  - apply step_drawnNumbers; assumption.
Qed.

(** A room found after a step is new, with an empty draw history, or
    was there before with a history that the step kept or extended. *)
Lemma step_room_origin st socket ev rid r' :
  rooms (step st socket ev).1 !! rid = Some r' ->
  drawnNumbers r' = [] \/
  exists r, rooms st !! rid = Some r /\
            JS.extends (drawnNumbers r) (drawnNumbers r').
Proof.
  destruct ev; unfold_handlers; repeat case_match; cbn [fst rooms]; intros Hr';
    try (right; exists r'; split; [assumption | apply extends_refl]);
    try split_lookup rid; simplify_eq;
    try (right; eexists; split; [eassumption | cbn; apply extends_refl]);
    try (left; reflexivity).
  right. eexists. split; [eassumption|]. right. eexists. split; [|reflexivity].
  match goal with H : negb _ = true |- _ => apply negb_true_iff in H; exact H end.
Qed.

(** A room found after a step was there before, and then its host is
    the same, or bound, or the id is not empty; or it is stored under an
    id that trimming leaves alone, with a bound host. *)
Lemma step_room_host st socket ev rid r' :
  rooms (step st socket ev).1 !! rid = Some r' ->
  (exists r, rooms st !! rid = Some r /\
             (hostSocketId r' = hostSocketId r \/ hostSocketId r' <> None \/ rid <> "")) \/
  (JS.trim rid = rid /\ hostSocketId r' <> None).
Proof.
  destruct ev; unfold_handlers; repeat case_match; cbn [fst rooms]; intros Hr';
    try (left; exists r'; split; [assumption | left; reflexivity]);
    try split_lookup rid; simplify_eq;
    try (left; eexists; split; [eassumption | cbn; auto; fail]).
  - right. split; [|cbn; congruence].
    match goal with H : inputId_of _ = Some _ |- _ =>
      apply inputId_of_fixpoint in H; apply H end.
  - right. split; [apply random_roomId_trimmed | cbn; congruence].
  - left. eexists. split; [eassumption|]. right. right.
    match goal with H : negb (JS.truthy _) = false |- _ =>
      apply negb_false_iff, truthy_true in H; exact H end.
Qed.

(** ** Invariants of the reachable states *)

(** Room ids are left alone by [trim], and a room without host has a
    non-empty id: the id of a room can be sent back as it is to name the
    room, unless it is the empty id (which only a generated id can be). *)
Lemma reachable_room_ids st :
  reachable st ->
  forall rid r,
    rooms st !! rid = Some r ->
    JS.trim rid = rid /\ (hostSocketId r = None -> rid <> "").
Proof.
  induction 1 as [|st socket ev Hst IH]; intros rid r Hr.
  - cbn in Hr. rewrite lookup_empty in Hr. discriminate.
  - destruct (step_room_host _ _ _ _ _ Hr) as [(r0 & Hr0 & Hh)|[Ht Hh]].
    + destruct (IH rid r0 Hr0) as [Ht Hne]. split; [exact Ht|].
      intros Hnone. destruct Hh as [E|[Hsome|Hrid]].
      * apply Hne. congruence.
      * contradiction.
      * exact Hrid.
    + split; [exact Ht|]. intros Hnone. contradiction.
Qed.

Lemma inputId_of_room_id st rid r :
  reachable st ->
  rooms st !! rid = Some r ->
  rid <> "" ->
  inputId_of (Some rid) = Some rid.
Proof.
  intros Hst Hr Hne. apply inputId_of_trimmed; [|exact Hne].
  apply (reachable_room_ids st Hst rid r Hr).
Qed.


Lemma reachable_distinct st :
  reachable st ->
  forall rid r, rooms st !! rid = Some r -> JS.distinct (drawnNumbers r).
Proof.
  induction 1 as [|st socket ev Hst IH]; intros rid r Hr.
  - cbn in Hr. rewrite lookup_empty in Hr. discriminate.
  - destruct (step_room_origin _ _ _ _ _ Hr) as [E|(r0 & Hr0 & Hext)].
    + rewrite E. constructor.
    + eapply distinct_extends; [eapply IH; eassumption | exact Hext].
Qed.

Lemma reachable_own_reachable st : reachable_own st -> reachable st.
Proof. induction 1; constructor; assumption. Qed.

Lemma reachable_own_run st evs :
  reachable_own st -> all_own st evs = true -> reachable_own (run st evs).
Proof.
  revert st. induction evs as [|[socket ev] evs IH]; intros st Hst Hevs; cbn.
  - exact Hst.
  - cbn in Hevs. apply andb_true_iff in Hevs as [Hev Hevs].
    apply IH; [constructor; assumption | exact Hevs].
Qed.

Lemma reachable_run st evs : reachable st -> reachable (run st evs).
Proof.
  revert st. induction evs as [|[socket ev] evs IH]; intros st Hst; cbn.
  - exact Hst.
  - apply IH. constructor. exact Hst.
Qed.

(** ** The draw history *)

Lemma extends_prefix l l' : JS.extends l l' -> l `prefix_of` l'.
Proof.
  intros [->|(n & _ & ->)]; [reflexivity | apply prefix_app_r; reflexivity].
Qed.

(** Over a sequence of events none of which replaces the room while it
    has drawn numbers, the room stays and its draw history only grows at
    the end. *)
Lemma run_drawnNumbers evs st rid r :
  rooms st !! rid = Some r ->
  history_kept st rid evs ->
  exists r', rooms (run st evs) !! rid = Some r' /\
             drawnNumbers r `prefix_of` drawnNumbers r'.
Proof.
  revert st r. induction evs as [|[socket ev] evs IH]; intros st r Hr Hkept.
  - exists r. split; [exact Hr | reflexivity].
  - destruct Hkept as [Hev Hkept].
    destruct (step_history_kept st socket ev rid r Hr Hev) as (r1 & Hr1 & Hext).
    destruct (IH _ r1 Hr1 Hkept) as (r' & Hr' & Hpre).
    exists r'. split; [exact Hr'|].
    etransitivity; [apply extends_prefix, Hext | exact Hpre].
Qed.

(** C1, as the code has it: in every reachable state the draw history of
    every room holds no Number twice (not even [+0] and [-0]).  Every
    event keeps the room, and leaves its history unchanged or extended
    at the end by one Number that was not in it, with one exception: a
    [host:createRoom] without a room id and with a valid range whose
    generated id is the id of this room, arriving while the room has
    drawn numbers, replaces the room, and the history is then empty.
    Over a sequence of events that holds no such exception the history
    stays a prefix of the later one. *)
Theorem drawnNumbers_append_only st rid r :
  reachable st ->
  rooms st !! rid = Some r ->
  JS.distinct (drawnNumbers r) /\
  List.NoDup (drawnNumbers r) /\
  (forall socket ev,
     exists r', rooms (step st socket ev).1 !! rid = Some r' /\
                JS.distinct (drawnNumbers r') /\
                (~ loses_history st rid ev ->
                 JS.extends (drawnNumbers r) (drawnNumbers r')) /\
                (loses_history st rid ev ->
                 drawnNumbers r' = [] /\
                 ~ JS.extends (drawnNumbers r) (drawnNumbers r'))) /\
  (forall evs,
     history_kept st rid evs ->
     exists r', rooms (run st evs) !! rid = Some r' /\
                drawnNumbers r `prefix_of` drawnNumbers r' /\
                JS.distinct (drawnNumbers r')).
Proof.
  intros Hst Hr.
  pose proof (reachable_distinct st Hst rid r Hr) as Hd.
  split; [exact Hd|]. split; [apply distinct_NoDup; exact Hd|]. split.
  - intros socket ev. destruct (replaces_room_dec rid ev) as [Hrep|Hrep].
    + destruct (step_replaces st socket ev rid Hrep) as (r' & Hr' & Hnil).
      exists r'. split; [exact Hr'|].
      split; [rewrite Hnil; constructor|]. split.
      * intros Hkept.
        destruct (step_history_kept st socket ev rid r Hr Hkept) as (r1 & Hr1 & Hext).
        congruence.
      * intros (_ & r0 & Hr0 & Hne). assert (r0 = r) by congruence. subst r0.
        split; [exact Hnil|]. rewrite Hnil.
        intros [E|(n & _ & E)]; [congruence|].
        destruct (drawnNumbers r); discriminate E.
    + destruct (step_drawnNumbers st socket ev rid r Hr Hrep) as (r' & Hr' & Hext).
      exists r'. split; [exact Hr'|].
      split; [eapply distinct_extends; eassumption|]. split.
      * intros _. exact Hext.
      * intros [Hrep' _]. contradiction.
  - intros evs Hkept.
    destruct (run_drawnNumbers evs st rid r Hr Hkept) as (r' & Hr' & Hpre).
    exists r'. split; [exact Hr'|]. split; [exact Hpre|].
    apply (reachable_distinct (run st evs) (reachable_run st evs Hst) rid r' Hr').
Qed.

(** ** [host:drawNumber] *)

Lemma set_drawnNumbers_id r : set_drawnNumbers r (drawnNumbers r) = r.
Proof. destruct r; reflexivity. Qed.

(** What the handler does once the caller is the bound host and the
    coerced number is finite. *)
Lemma host_drawNumber_accepts st socket rid r number callback :
  rooms st !! rid = Some r ->
  hostSocketId r = Some socket ->
  JS.isFinite (Number number) = true ->
  let n := Number number in
  let drawn := if negb (JS.includes (drawnNumbers r) n)
               then drawnNumbers r ++ [n] else drawnNumbers r in
  host_drawNumber st socket rid number callback =
  ({| rooms := <[rid := set_drawnNumbers r drawn]> (rooms st);
      sockets := sockets st |},
   Emit (to_room rid) (number_drawn n drawn) :: callback_if callback Ok).
Proof.
  intros Hr Hh Hfin. unfold host_drawNumber. rewrite Hr, Hh.
  rewrite bool_decide_eq_true_2 by reflexivity. cbn [negb].
  rewrite Hfin. reflexivity.
Qed.

Lemma includes_push l n : JS.includes (l ++ [n]) n = true.
Proof.
  apply includes_InA, InA_app_iff. right. constructor. apply same_number_refl.
Qed.

(** In a list without repetition a Number that is included occurs once. *)
Lemma distinct_once l n :
  JS.distinct l -> JS.includes l n = true ->
  length (List.filter (fun x => JS.SameValueZero x n) l) = 1.
Proof.
  induction 1 as [|x l Hx Hl IH]; cbn; [discriminate|].
  destruct (JS.SameValueZero x n) eqn:E; cbn.
  - intros _. f_equal.
    assert (JS.includes l n = false) as Hn.
    { destruct (JS.includes l n) eqn:E'; [|reflexivity]. exfalso. apply Hx.
      apply includes_InA in E'.
      eapply InA_eqA; [typeclasses eauto | apply same_number_sym; exact E | exact E']. }
    clear -Hn. induction l as [|y l IH]; cbn in *; [reflexivity|].
    apply orb_false_iff in Hn as [-> Hn]. apply IH, Hn.
  - exact IH.
Qed.

(** C2: two draws of the same number by the bound host.  The first one
    keeps or extends the history, the second one changes nothing; the
    number then occurs exactly once; each call emits ["number:drawn"]
    with the number and the whole history to the room, then acknowledges
    [{ ok: true }] (when the client passed a callback).  Drawing 17, 17
    and 42 on an empty history leaves [17, 42]. *)
Theorem drawNumber_twice st socket rid r number cb1 cb2 :
  reachable st ->
  rooms st !! rid = Some r ->
  hostSocketId r = Some socket ->
  JS.isFinite (Number number) = true ->
  let n := Number number in
  let first := host_drawNumber st socket rid number cb1 in
  let second := host_drawNumber first.1 socket rid number cb2 in
  (exists r1,
     rooms first.1 !! rid = Some r1 /\
     JS.extends (drawnNumbers r) (drawnNumbers r1) /\
     second.1 = first.1 /\
     length (List.filter (fun x => JS.SameValueZero x n) (drawnNumbers r1)) = 1 /\
     first.2 = Emit (to_room rid) (number_drawn n (drawnNumbers r1))
               :: callback_if cb1 Ok /\
     second.2 = Emit (to_room rid) (number_drawn n (drawnNumbers r1))
                :: callback_if cb2 Ok) /\
  (drawnNumbers r = [] ->
   drawnNumbers <$>
     rooms (run st [(socket, HostDrawNumber rid (JS.VNum (JS.of_Z 17)) cb1);
                    (socket, HostDrawNumber rid (JS.VNum (JS.of_Z 17)) cb2);
                    (socket, HostDrawNumber rid (JS.VNum (JS.of_Z 42)) cb1)]) !! rid
   = Some [JS.of_Z 17; JS.of_Z 42]).
Proof.
  intros Hst Hr Hh Hfin n first second.
  pose proof (reachable_distinct st Hst rid r Hr) as Hd.
  split.
  - subst first second.
    rewrite (host_drawNumber_accepts st socket rid r number cb1 Hr Hh Hfin).
    fold n. cbn [fst snd].
    set (drawn := if negb (JS.includes (drawnNumbers r) n)
                  then drawnNumbers r ++ [n] else drawnNumbers r).
    assert (JS.extends (drawnNumbers r) drawn) as Hext.
    { subst drawn. destruct (JS.includes (drawnNumbers r) n) eqn:E; cbn.
      - left; reflexivity.
      - right. exists n. split; [exact E | reflexivity]. }
    assert (JS.includes drawn n = true) as Hin.
    { subst drawn. destruct (JS.includes (drawnNumbers r) n) eqn:E; cbn;
        [exact E | apply includes_push]. }
    exists (set_drawnNumbers r drawn).
    split; [cbn; apply lookup_insert_eq|].
    split; [exact Hext|].
    assert (host_drawNumber
              {| rooms := <[rid := set_drawnNumbers r drawn]> (rooms st);
                 sockets := sockets st |} socket rid number cb2
            = ({| rooms := <[rid := set_drawnNumbers r drawn]> (rooms st);
                  sockets := sockets st |},
               Emit (to_room rid) (number_drawn n drawn) :: callback_if cb2 Ok)) as E2.
    { erewrite host_drawNumber_accepts;
        [| cbn; apply lookup_insert_eq | exact Hh | exact Hfin].
      cbn [rooms sockets drawnNumbers set_drawnNumbers]. fold n. rewrite Hin. cbn [negb].
      rewrite insert_insert_eq.
      replace (set_drawnNumbers (set_drawnNumbers r drawn) drawn)
        with (set_drawnNumbers r drawn) by reflexivity.
      reflexivity. }
    rewrite E2. cbn [fst snd drawnNumbers set_drawnNumbers].
    split; [reflexivity|].
    split; [apply distinct_once; [eapply distinct_extends; eassumption | exact Hin]|].
    split; reflexivity.
  - intros Hnil. unfold run. cbn [fold_left fst snd step].
    set (a := JS.of_Z 17). set (b := JS.of_Z 42).
    assert (JS.isFinite (Number (JS.VNum a)) = true) as Ha by reflexivity.
    assert (JS.isFinite (Number (JS.VNum b)) = true) as Hb by reflexivity.
    assert (JS.includes [a] a = true) as Haa by reflexivity.
    assert (JS.includes [a] b = false) as Hab by reflexivity.
    rewrite (host_drawNumber_accepts st socket rid r (JS.VNum a) cb1 Hr Hh Ha).
    rewrite Hnil. cbn [Number fst JS.includes existsb negb app].
    set (st1 := {| rooms := <[rid := set_drawnNumbers r [a]]> (rooms st);
                   sockets := sockets st |}).
    assert (rooms st1 !! rid = Some (set_drawnNumbers r [a])) as Hr1
      by apply lookup_insert_eq.
    rewrite (host_drawNumber_accepts st1 socket rid _ (JS.VNum a) cb2 Hr1 Hh Ha).
    cbn [Number fst drawnNumbers set_drawnNumbers]. rewrite Haa. cbn [negb].
    set (st2 := {| rooms := <[rid := _]> (rooms st1); sockets := sockets st1 |}).
    assert (rooms st2 !! rid = Some (set_drawnNumbers (set_drawnNumbers r [a]) [a])) as Hr2
      by apply lookup_insert_eq.
    rewrite (host_drawNumber_accepts st2 socket rid _ (JS.VNum b) cb1 Hr2 Hh Hb).
    cbn [Number fst rooms drawnNumbers set_drawnNumbers]. rewrite Hab. cbn [negb app].
    rewrite lookup_insert_eq. reflexivity.
Qed.

(** C5: a draw by a socket that is not the bound host of an existing
    room is answered with [NotHostError]; nothing is emitted and the
    state, hence every draw history, is as before. *)
Theorem drawNumber_not_host st socket rid r number callback :
  rooms st !! rid = Some r ->
  hostSocketId r <> Some socket ->
  host_drawNumber st socket rid number callback
  = (st, callback_if callback (Fail (Some NotHostError))).
Proof.
  intros Hr Hh. unfold host_drawNumber. rewrite Hr.
  rewrite bool_decide_eq_false_2 by congruence. reflexivity.
Qed.

(** C9: the handler validates and stores [Number(number)], not the raw
    payload.  For the bound host of an existing room the draw is
    accepted exactly when the coerced value is finite, and that value is
    what is pushed and emitted; [InvalidNumberError] is answered exactly
    when it is NaN or infinite.  [null] and [false] coerce to [0], [true]
    to [1], [undefined] to NaN, a string to whatever its numeric literal
    denotes. *)
Theorem drawNumber_coerces st socket rid r number callback :
  rooms st !! rid = Some r ->
  hostSocketId r = Some socket ->
  let n := Number number in
  let drawn := if negb (JS.includes (drawnNumbers r) n)
               then drawnNumbers r ++ [n] else drawnNumbers r in
  (JS.isFinite n = true ->
   host_drawNumber st socket rid number callback
   = ({| rooms := <[rid := set_drawnNumbers r drawn]> (rooms st);
         sockets := sockets st |},
      Emit (to_room rid) (number_drawn n drawn) :: callback_if callback Ok)) /\
  (JS.isFinite n = false ->
   host_drawNumber st socket rid number callback
   = (st, callback_if callback (Fail (Some InvalidNumberError)))) /\
  (In (Callback (Fail (Some InvalidNumberError)))
      (host_drawNumber st socket rid number callback).2 ->
   JS.isFinite n = false) /\
  Number JS.VNull = S754_zero false /\
  Number (JS.VBool false) = S754_zero false /\
  Number (JS.VBool true) = JS.of_Z 1 /\
  Number JS.VUndefined = JS.NaN /\
  JS.isFinite JS.NaN = false /\
  (forall s, Number (JS.VStr s) = StringToNumber s) /\
  (forall x, Number (JS.VNum x) = x).
Proof.
  intros Hr Hh n drawn.
  assert (JS.isFinite n = false ->
          host_drawNumber st socket rid number callback
          = (st, callback_if callback (Fail (Some InvalidNumberError)))) as Hrej.
  { intros Hfin. unfold host_drawNumber. rewrite Hr, Hh.
    rewrite bool_decide_eq_true_2 by reflexivity. cbn [negb].
    fold n. rewrite Hfin. reflexivity. }
  split; [intros Hfin; apply host_drawNumber_accepts; assumption|].
  split; [exact Hrej|].
  split; [|repeat split; reflexivity].
  destruct (JS.isFinite n) eqn:Hfin; [|reflexivity].
  rewrite (host_drawNumber_accepts st socket rid r number callback Hr Hh Hfin).
  cbn [snd]. intros [E|Hin]; [discriminate|].
  destruct callback; cbn in Hin; [destruct Hin as [E|[]]; discriminate | destruct Hin].
Qed.

(** ** [host:createRoom] *)

(** C7: a range that is not finite on either side once coerced, or whose
    minimum exceeds its maximum, is answered with [InvalidRangeError],
    and the state is as before: no room created, rebound or modified. *)
Theorem createRoom_invalid_range st socket roomId mn mx random :
  JS.isFinite (Number mn) = false \/
  JS.isFinite (Number mx) = false \/
  JS.gt (Number mn) (Number mx) = true ->
  host_createRoom st socket roomId mn mx random
  = (st, [Callback (Fail (Some InvalidRangeError))]).
Proof.
  intros H. unfold host_createRoom.
  assert (invalid_range (Number mn) (Number mx) = true) as ->; [|reflexivity].
  unfold invalid_range. destruct H as [->|[->| ->]]; cbn;
    rewrite ?orb_true_r; reflexivity.
Qed.

(** [host:createRoom] naming a room that has a bound host. *)
Lemma host_createRoom_refuses st socket requested rid r h mn mx random :
  inputId_of requested = Some rid ->
  rooms st !! rid = Some r ->
  hostSocketId r = Some h ->
  (host_createRoom st socket requested mn mx random).1 = st /\
  (invalid_range (Number mn) (Number mx) = false ->
   host_createRoom st socket requested mn mx random
   = (st, [Callback (Fail (Some HostAlreadyPresentError))])).
Proof.
  intros Hid Hr Hh. unfold host_createRoom. rewrite Hid, Hr, Hh.
  destruct (invalid_range _ _); split; try reflexivity; discriminate.
Qed.

(** [host:createRoom] naming a room that is without host. *)
Lemma host_createRoom_rejoins st socket requested rid r mn mx random :
  inputId_of requested = Some rid ->
  rooms st !! rid = Some r ->
  hostSocketId r = None ->
  invalid_range (Number mn) (Number mx) = false ->
  let r' := set_range (set_host r (Some socket)) (Number mn) (Number mx) in
  host_createRoom st socket requested mn mx random
  = ({| rooms := <[rid := r']> (rooms st);
        sockets := <[socket := set_role (data_of st socket) role_host rid]> (sockets st) |},
     [Emit (to_socket socket) (room_playersUpdate (online_names (players r)));
      Callback (OkRoom true r')]).
Proof.
  intros Hid Hr Hh Hrange r'.
  unfold host_createRoom. rewrite Hid, Hr, Hh, Hrange.
  unfold emitPlayersUpdate. rewrite lookup_insert_eq. reflexivity.
Qed.

(** C6, as the code has it: while a room of the running server has a
    bound host and its id is not empty, [host:createRoom] with its id,
    from any socket, leaves the whole state as it is (host binding,
    range, draw history, players); with a valid range the answer is
    [HostAlreadyPresentError] (an invalid range is refused before, with
    [InvalidRangeError]).  An empty [roomId] is a request that names no
    room, so the room stored under the empty id is not protected. *)
Theorem createRoom_host_present st socket rid r h mn mx random :
  reachable st ->
  rooms st !! rid = Some r ->
  hostSocketId r = Some h ->
  rid <> "" ->
  (host_createRoom st socket (Some rid) mn mx random).1 = st /\
  (invalid_range (Number mn) (Number mx) = false ->
   host_createRoom st socket (Some rid) mn mx random
   = (st, [Callback (Fail (Some HostAlreadyPresentError))])).
Proof.
  intros Hst Hr Hh Hne.
  apply (host_createRoom_refuses st socket (Some rid) rid r h); try assumption.
  apply (inputId_of_room_id st rid r); assumption.
Qed.

(** C3: when a room of the running server is without host,
    [host:createRoom] with its id and a valid range binds the calling
    socket as host, overwrites the range, answers [rejoin: true] with
    the room, and keeps the draw history and the players as they were;
    the other rooms are untouched and the new host is sent the names of
    the online players. *)
Theorem createRoom_rejoin st socket rid r mn mx random :
  reachable st ->
  rooms st !! rid = Some r ->
  hostSocketId r = None ->
  invalid_range (Number mn) (Number mx) = false ->
  exists r',
    host_createRoom st socket (Some rid) mn mx random
    = ({| rooms := <[rid := r']> (rooms st);
          sockets := <[socket := set_role (data_of st socket) role_host rid]> (sockets st) |},
       [Emit (to_socket socket) (room_playersUpdate (online_names (players r)));
        Callback (OkRoom true r')]) /\
    hostSocketId r' = Some socket /\
    minNumber r' = Number mn /\
    maxNumber r' = Number mx /\
    drawnNumbers r' = drawnNumbers r /\
    players r' = players r /\
    roomId r' = roomId r.
Proof.
  intros Hst Hr Hh Hrange.
  exists (set_range (set_host r (Some socket)) (Number mn) (Number mx)).
  split; [|repeat split; reflexivity].
  apply host_createRoom_rejoins; try assumption.
  apply (inputId_of_room_id st rid r Hst Hr).
  apply (reachable_room_ids st Hst rid r Hr), Hh.
Qed.

(** ** [disconnect] *)

Lemma set_socketId_fields p s :
  name (set_socketId p s) = name p /\
  secretKey (set_socketId p s) = secretKey p /\
  cardNumbers (set_socketId p s) = cardNumbers p /\
  socketId (set_socketId p s) = s.
Proof. repeat split. Qed.

(** The player branch of [disconnect], when the record exists. *)
Lemma disconnect_player st socket rid r key p :
  role (data_of st socket) = Some role_player ->
  data_roomId (data_of st socket) = Some rid ->
  rid <> "" ->
  data_secretKey (data_of st socket) = Some key ->
  rooms st !! rid = Some r ->
  JS.get (players r) key = Some p ->
  let r' := set_players r (JS.set (players r) key (set_socketId p None)) in
  disconnect st socket
  = ({| rooms := <[rid := r']> (rooms st); sockets := sockets st |},
     match hostSocketId r with
     | Some h => [Emit (to_socket h) (room_playersUpdate (online_names (players r')))]
     | None => []
     end).
Proof.
  intros Hrole Hrid Hne Hkey Hr Hp r'.
  unfold disconnect. rewrite Hrole, Hrid, Hkey.
  assert (JS.truthy rid = true) as ->.
  { unfold JS.truthy. apply negb_true_iff, String.eqb_neq. exact Hne. }
  cbn [negb]. change (default "undefined" (Some key)) with key. rewrite Hr, Hp.
  unfold emitPlayersUpdate. rewrite lookup_insert_eq. reflexivity.
Qed.

(** The host branch of [disconnect]. *)
Lemma disconnect_host st socket rid r :
  role (data_of st socket) = Some role_host ->
  data_roomId (data_of st socket) = Some rid ->
  rid <> "" ->
  rooms st !! rid = Some r ->
  disconnect st socket
  = ({| rooms := <[rid := set_host r None]> (rooms st); sockets := sockets st |}, []).
Proof.
  intros Hrole Hrid Hne Hr.
  unfold disconnect. rewrite Hrole, Hrid.
  assert (JS.truthy rid = true) as ->.
  { unfold JS.truthy. apply negb_true_iff, String.eqb_neq. exact Hne. }
  cbn [negb]. rewrite Hr. reflexivity.
Qed.

(** C8, as the code has it: what [disconnect] does, by the role and room
    that [socket.data] records for the socket.  The handler returns at
    once when the recorded room id is empty, so the first two cases are
    for a room id that is not empty.
    - Host of an existing room: the room's [hostSocketId] becomes null;
      its range, draw history and players, the other rooms and every
      [socket.data] stay as they are; nothing is emitted.
    - Player of an existing room, with a record under the recorded key:
      that record's [socketId] becomes null, its name, key and card are
      kept, no record is added or removed and the other records are
      untouched; then [emitPlayersUpdate] runs, which sends the online
      names to the host when there is one.
    - No role, no room id, an empty room id, or a room id that names no
      room: nothing changes and nothing is emitted. *)
Theorem disconnect_frame st socket :
  let d := data_of st socket in
  (forall rid r,
     role d = Some role_host -> data_roomId d = Some rid -> rid <> "" ->
     rooms st !! rid = Some r ->
     exists r',
       disconnect st socket
       = ({| rooms := <[rid := r']> (rooms st); sockets := sockets st |}, []) /\
       hostSocketId r' = None /\
       roomId r' = roomId r /\
       minNumber r' = minNumber r /\
       maxNumber r' = maxNumber r /\
       drawnNumbers r' = drawnNumbers r /\
       players r' = players r) /\
  (forall rid r key p,
     role d = Some role_player -> data_roomId d = Some rid -> rid <> "" ->
     data_secretKey d = Some key ->
     rooms st !! rid = Some r ->
     JS.get (players r) key = Some p ->
     exists r',
       disconnect st socket
       = ({| rooms := <[rid := r']> (rooms st); sockets := sockets st |},
          match hostSocketId r with
          | Some h => [Emit (to_socket h) (room_playersUpdate (online_names (players r')))]
          | None => []
          end) /\
       JS.get (players r') key
       = Some {| name := name p; secretKey := secretKey p;
                 socketId := None; cardNumbers := cardNumbers p |} /\
       (forall k, k <> key -> JS.get (players r') k = JS.get (players r) k) /\
       (players r').*1 = (players r).*1 /\
       hostSocketId r' = hostSocketId r /\
       roomId r' = roomId r /\
       minNumber r' = minNumber r /\
       maxNumber r' = maxNumber r /\
       drawnNumbers r' = drawnNumbers r) /\
  (role d = None \/ data_roomId d = None \/ data_roomId d = Some "" \/
   (exists rid, data_roomId d = Some rid /\ rooms st !! rid = None) ->
   disconnect st socket = (st, [])).
Proof.
  intros d. split; [|split].
  - intros rid r Hrole Hrid Hne Hr. exists (set_host r None).
    split; [|repeat split; reflexivity].
    apply disconnect_host; assumption.
  - intros rid r key p Hrole Hrid Hne Hkey Hr Hp.
    exists (set_players r (JS.set (players r) key (set_socketId p None))).
    split; [|split; [|split; [|split; [|repeat split; reflexivity]]]].
    + apply disconnect_player; assumption.
    + cbn. apply get_set_eq.
    + intros k Hk. cbn. apply get_set_ne. congruence.
    + cbn. apply keys_set_existing. rewrite Hp. eauto.
  - unfold disconnect. fold d.
    intros [->|[->|[->|(rid & -> & Hr)]]].
    + reflexivity.
    + destruct (role d); reflexivity.
    + destruct (role d); reflexivity.
    + destruct (role d); [|reflexivity].
      destruct (negb (JS.truthy rid)); [reflexivity|]. rewrite Hr. reflexivity.
Qed.

(** ** [player:joinRoom] *)



(** *** The generated key

    [generateSecretKey] rounds twice.  The lemmas below follow the
    rounding of [SpecFloat] on positive values: the bits shifted out,
    the round to nearest even, and the bounds the result keeps. *)

Section Binary64.

Local Open Scope Z_scope.

Lemma digits2_pos_log2 p : Zpos (digits2_pos p) = Z.log2 (Zpos p) + 1.
Proof.
  assert (Hs : forall q, digits2_pos q = Pos.size q)
    by (induction q; simpl; congruence).
  rewrite Hs. destruct p; simpl; rewrite ?Pos2Z.inj_succ; lia.
Qed.

(** [digits2_pos] counts the bits of a mantissa. *)
Lemma digits2_pos_bounds p :
  2 ^ (Zpos (digits2_pos p) - 1) <= Zpos p < 2 ^ Zpos (digits2_pos p).
Proof.
  rewrite digits2_pos_log2.
  replace (Z.log2 (Zpos p) + 1 - 1) with (Z.log2 (Zpos p)) by lia.
  replace (Z.log2 (Zpos p) + 1) with (Z.succ (Z.log2 (Zpos p))) by lia.
  apply Z.log2_spec. lia.
Qed.

Lemma digits2_pos_unique p k :
  0 < k -> 2 ^ (k - 1) <= Zpos p < 2 ^ k -> Zpos (digits2_pos p) = k.
Proof.
  intros Hk H. rewrite digits2_pos_log2.
  rewrite (Z.log2_unique (Zpos p) (k - 1)); [lia|lia|].
  replace (Z.succ (k - 1)) with k by lia. exact H.
Qed.

Lemma shifted_1 x : 0 <= shr_m x -> JS.shifted 1 x (shr_1 x).
Proof.
  destruct x as [m r s]. simpl. intros Hm. unfold JS.shifted.
  change (2 ^ 1) with 2.
  destruct m as [|[p|p|]|p]; simpl shr_m; simpl shr_r; simpl shr_s; try lia.
  - split; [reflexivity|]. intros _ -> ->. auto.
  - split; [rewrite Pos2Z.inj_xI; apply Z.div_unique with 1; lia|].
    rewrite Pos2Z.inj_xI. intros H. exfalso.
    rewrite Z.add_comm, Z.mul_comm, Z.mod_add in H by lia. discriminate.
  - split; [rewrite Pos2Z.inj_xO; apply Z.div_unique with 0; lia|].
    intros _ -> ->. auto.
  - split; [reflexivity|]. intros H. discriminate.
Qed.

Lemma shifted_trans a b x y z :
  0 <= a -> 0 <= b -> 0 <= shr_m x ->
  JS.shifted a x y -> JS.shifted b y z -> JS.shifted (a + b) x z.
Proof.
  intros Ha Hb Hx [H1 H1'] [H2 H2']. unfold JS.shifted.
  assert (Hpa : 0 < 2 ^ a) by (apply Z.pow_pos_nonneg; lia).
  assert (Hpb : 0 < 2 ^ b) by (apply Z.pow_pos_nonneg; lia).
  rewrite Z.pow_add_r by lia. split.
  - rewrite H2, H1. apply Z.div_div; lia.
  - intros Hmod Hr Hs.
    assert (Hxa : shr_m x mod 2 ^ a = 0).
    { rewrite Z.rem_mul_r in Hmod by lia.
      pose proof (Z.mod_pos_bound (shr_m x) (2 ^ a) Hpa).
      pose proof (Z.mod_pos_bound (shr_m x / 2 ^ a) (2 ^ b) Hpb). nia. }
    destruct (H1' Hxa Hr Hs) as [Hr' Hs'].
    apply H2'; auto. rewrite H1.
    rewrite Z.rem_mul_r in Hmod by lia.
    pose proof (Z.mod_pos_bound (shr_m x / 2 ^ a) (2 ^ b) Hpb). nia.
Qed.

Lemma shifted_nonneg j x y : 0 <= j -> 0 <= shr_m x -> JS.shifted j x y -> 0 <= shr_m y.
Proof.
  intros Hj Hx [-> _]. apply Z.div_pos; [lia|]. apply Z.pow_pos_nonneg; lia.
Qed.

Lemma iter_shr_1 p : forall x,
  0 <= shr_m x -> JS.shifted (Zpos p) x (SpecFloat.iter_pos shr_1 p x).
Proof.
  induction p as [p IH|p IH|]; intros x Hx; simpl.
  - pose proof (shifted_1 x Hx) as H1.
    pose proof (shifted_nonneg 1 _ _ ltac:(lia) Hx H1) as Hx1.
    pose proof (IH _ Hx1) as H2.
    pose proof (shifted_nonneg (Zpos p) _ _ ltac:(lia) Hx1 H2) as Hx2.
    pose proof (IH _ Hx2) as H3.
    replace (Zpos p~1) with (1 + (Zpos p + Zpos p)) by (rewrite Pos2Z.inj_xI; lia).
    eapply shifted_trans; [lia|lia|lia|exact H1|].
    eapply shifted_trans; [lia|lia|lia|exact H2|exact H3].
  - pose proof (IH _ Hx) as H2.
    pose proof (shifted_nonneg (Zpos p) _ _ ltac:(lia) Hx H2) as Hx2.
    pose proof (IH _ Hx2) as H3.
    replace (Zpos p~0) with (Zpos p + Zpos p) by (rewrite Pos2Z.inj_xO; lia).
    eapply shifted_trans; [lia|lia|lia|exact H2|exact H3].
  - apply shifted_1, Hx.
Qed.

Lemma shr_spec x E n :
  0 <= n -> 0 <= shr_m x ->
  exists y, shr x E n = (y, E + n) /\ JS.shifted n x y.
Proof.
  intros Hn Hx. destruct n as [|p|p]; [| |lia].
  - exists x. split; [simpl; f_equal; lia|]. split.
    + simpl. now rewrite Z.div_1_r.
    + auto.
  - exists (SpecFloat.iter_pos shr_1 p x). split; [reflexivity|]. apply iter_shr_1, Hx.
Qed.

Lemma round_nearest_even_spec y :
  shr_m y <= round_nearest_even (shr_m y) (loc_of_shr_record y) <= shr_m y + 1 /\
  (shr_r y = false -> shr_s y = false ->
   round_nearest_even (shr_m y) (loc_of_shr_record y) = shr_m y).
Proof.
  destruct y as [m [] []]; simpl; try destruct (Z.even m); split; try lia; try discriminate; auto.
Qed.

(** Rounding a mantissa of at least 53 bits, away from underflow and
    overflow. *)
Lemma binary_round_aux_spec M E :
  53 <= Zpos (digits2_pos M) ->
  -1074 <= E + (Zpos (digits2_pos M) - 53) < 971 ->
  exists q e',
    binary_round_aux 53 1024 false (Zpos M) E loc_Exact = S754_finite false q e' /\
    JS.rounds_to M E q e'.
Proof.
  intros Hd Hu. unfold JS.rounds_to.
  pose proof (digits2_pos_bounds M) as HM.
  set (d := Zpos (digits2_pos M)) in *. set (n := d - 53) in *.
  assert (Hn : 0 <= n) by lia.
  assert (Hpn : 0 < 2 ^ n) by (apply Z.pow_pos_nonneg; lia).
  assert (Hf : 2 ^ 52 <= Zpos M / 2 ^ n < 2 ^ 53).
  { split.
    - apply Z.div_le_lower_bound; [lia|]. rewrite <- Z.pow_add_r by lia.
      replace (n + 52) with (d - 1) by lia. lia.
    - apply Z.div_lt_upper_bound; [lia|]. rewrite <- Z.pow_add_r by lia.
      replace (n + 53) with d by lia. lia. }
  unfold binary_round_aux, shr_fexp.
  change (Zdigits2 (Zpos M)) with d.
  replace (fexp 53 1024 (d + E) - E) with n
    by (unfold fexp, emin; lia).
  destruct (shr_spec (shr_record_of_loc (Zpos M) loc_Exact) E n Hn ltac:(simpl; lia))
    as (y & -> & Hy1 & Hy2).
  simpl shr_m in Hy1, Hy2. simpl shr_r in Hy2. simpl shr_s in Hy2.
  destruct (round_nearest_even_spec y) as [Hm1 Hex].
  set (m1 := round_nearest_even (shr_m y) (loc_of_shr_record y)) in *.
  rewrite Hy1 in Hm1.
  assert (Hexact : Zpos M mod 2 ^ n = 0 -> m1 = Zpos M / 2 ^ n).
  { intros H0. destruct (Hy2 H0 eq_refl eq_refl) as [Hr Hs].
    rewrite (Hex Hr Hs). exact Hy1. }
  clearbody m1. clear Hex Hy1 Hy2 y.
  destruct m1 as [|q1|q1]; [lia| |lia].
  destruct (Z.eq_dec (Zpos q1) (2 ^ 53)) as [Hq|Hq].
  - (* the rounding carried into the next binade *)
    assert (Hd1 : Zdigits2 (Zpos q1) = 54) by (rewrite Hq; reflexivity).
    rewrite Hd1.
    replace (fexp 53 1024 (54 + (E + n)) - (E + n)) with 1
      by (unfold fexp, emin; lia).
    injection Hq as ->.
    unfold shr. cbn [SpecFloat.iter_pos shr_1 shr_m shr_record_of_loc orb].
    replace (E + n + 1 <=? 1024 - 53) with true by (symmetry; apply Z.leb_le; lia).
    eexists _, _. split; [reflexivity|].
    replace (E + n + 1 - (E + n)) with 1 by lia.
    change (2 ^ 1) with 2. split; [lia|]. split; [lia|].
    intros H0. specialize (Hexact H0). lia.
  - assert (Hd1 : Zdigits2 (Zpos q1) = 53).
    { simpl. apply digits2_pos_unique; [lia|]. change (53 - 1) with 52. lia. }
    rewrite Hd1.
    replace (fexp 53 1024 (53 + (E + n)) - (E + n)) with 0
      by (unfold fexp, emin; lia).
    unfold shr. cbn [shr_m shr_record_of_loc].
    replace (E + n <=? 1024 - 53) with true by (symmetry; apply Z.leb_le; lia).
    eexists _, _. split; [reflexivity|].
    replace (E + n - (E + n)) with 0 by lia.
    rewrite Z.mul_1_r. split; [lia|]. split; [lia|]. exact Hexact.
Qed.

Lemma iter_xO m j : Zpos (Pos.iter xO m j) = Zpos m * 2 ^ Zpos j.
Proof.
  revert m. induction j as [j IH|j IH|]; intro m; simpl Pos.iter.
  - assert (H : 2 ^ Zpos j~1 = 2 * (2 ^ Zpos j * 2 ^ Zpos j)).
    { rewrite <- Z.pow_add_r, <- Z.pow_succ_r by lia. f_equal. lia. }
    rewrite H, Pos2Z.inj_xO, !IH. lia.
  - assert (H : 2 ^ Zpos j~0 = 2 ^ Zpos j * 2 ^ Zpos j).
    { rewrite <- Z.pow_add_r by lia. f_equal. lia. }
    rewrite H, !IH. lia.
  - rewrite Pos2Z.inj_xO. change (2 ^ 1) with 2. lia.
Qed.

Lemma shl_align_spec m e e' :
  e' <= e ->
  snd (shl_align m e e') = e' /\
  Zpos (fst (shl_align m e e')) = Zpos m * 2 ^ (e - e').
Proof.
  intros H. unfold shl_align. destruct (e' - e) as [|p|p] eqn:Hd; [|lia|].
  - replace e' with e by lia. rewrite Z.sub_diag. simpl. split; [reflexivity|lia].
  - simpl fst. simpl snd. split; [reflexivity|]. rewrite iter_xO.
    replace (e - e') with (Zpos p) by lia. reflexivity.
Qed.

(** Rounding keeps a value between two binary64 bounds that lie on the
    grid of the result: here multiples of [2^-39] below [2^14]. *)
Lemma binary_round_aux_between M E lo hi :
  -200 <= E -> 2 ^ 52 <= Zpos M -> hi < 2 ^ 53 ->
  lo * 2 ^ 161 <= JS.scaled M E <= hi * 2 ^ 161 ->
  exists q e',
    binary_round_aux 53 1024 false (Zpos M) E loc_Exact = S754_finite false q e' /\
    -200 <= e' /\ lo * 2 ^ 161 <= JS.scaled q e' <= hi * 2 ^ 161.
Proof.
  intros HE HM Hhi [Hlo Hup]. unfold JS.scaled in *.
  pose proof (digits2_pos_bounds M) as Hd.
  set (d := Zpos (digits2_pos M)) in *.
  assert (Hd53 : 53 <= d).
  { assert (2 ^ 52 < 2 ^ d) by lia.
    apply Z.pow_lt_mono_r_iff in H; lia. }
  assert (HPE : 0 < 2 ^ (E + 200)) by (apply Z.pow_pos_nonneg; lia).
  assert (Hu : E + (d - 53) <= -39).
  { assert (H : 2 ^ (d - 1 + (E + 200)) < 2 ^ 214).
    { rewrite Z.pow_add_r by lia.
      change (2 ^ 214) with (2 ^ 53 * 2 ^ 161).
      assert (2 ^ (d - 1) * 2 ^ (E + 200) <= Zpos M * 2 ^ (E + 200))
        by (apply Z.mul_le_mono_nonneg_r; lia).
      assert (hi * 2 ^ 161 < 2 ^ 53 * 2 ^ 161)
        by (apply Z.mul_lt_mono_pos_r; lia).
      lia. }
    apply Z.pow_lt_mono_r_iff in H; lia. }
  destruct (binary_round_aux_spec M E) as (q & e' & Hr & He' & HV & Hex);
    [exact Hd53|fold d; lia|].
  fold d in He', HV, Hex.
  set (n := d - 53) in *. set (u := E + n) in *.
  exists q, e'. split; [exact Hr|]. split; [lia|].
  set (V := Zpos q * 2 ^ (e' - u)) in *.
  assert (Hn : 0 < 2 ^ n) by (apply Z.pow_pos_nonneg; lia).
  assert (Hs : 0 < 2 ^ (-39 - u)) by (apply Z.pow_pos_nonneg; lia).
  assert (HPu : 0 < 2 ^ (u + 200)) by (apply Z.pow_pos_nonneg; lia).
  assert (Hq : Zpos q * 2 ^ (e' + 200) = V * 2 ^ (u + 200)).
  { unfold V. rewrite <- Z.mul_assoc, <- Z.pow_add_r by lia.
    do 2 f_equal. lia. }
  assert (H161 : 2 ^ 161 = 2 ^ (-39 - u) * 2 ^ (u + 200)).
  { rewrite <- Z.pow_add_r by lia. f_equal. lia. }
  assert (HuE : 2 ^ (u + 200) = 2 ^ n * 2 ^ (E + 200)).
  { rewrite <- Z.pow_add_r by lia. f_equal. unfold u. lia. }
  rewrite Hq, H161, !Z.mul_assoc.
  rewrite H161, HuE, !Z.mul_assoc in Hlo, Hup.
  apply Z.mul_le_mono_pos_r in Hlo; [|lia].
  apply Z.mul_le_mono_pos_r in Hup; [|lia].
  set (clo := lo * 2 ^ (-39 - u)) in *. set (chi := hi * 2 ^ (-39 - u)) in *.
  assert (Hf1 : clo <= Zpos M / 2 ^ n)
    by (apply Z.div_le_lower_bound; lia).
  assert (Hf2 : Zpos M / 2 ^ n <= chi)
    by (apply Z.div_le_upper_bound; lia).
  split; apply Z.mul_le_mono_nonneg_r; try lia.
  destruct (Z.eq_dec (Zpos M / 2 ^ n) chi) as [Heq|Hne]; [|lia].
  assert (Hmod : Zpos M mod 2 ^ n = 0).
  { pose proof (Z.div_mod (Zpos M) (2 ^ n) ltac:(lia)) as Hdm.
    pose proof (Z.mod_pos_bound (Zpos M) (2 ^ n) Hn). rewrite Heq in Hdm. lia. }
  rewrite (Hex Hmod). lia.
Qed.

Lemma binary_round_digits M E :
  2 ^ 52 <= Zpos M -> -200 <= E ->
  binary_round 53 1024 false M E =
  binary_round_aux 53 1024 false (Zpos M) E loc_Exact.
Proof.
  intros HM HE. unfold binary_round.
  pose proof (digits2_pos_bounds M) as Hd.
  set (d := Zpos (digits2_pos M)) in *.
  assert (Hd53 : 53 <= d).
  { assert (2 ^ 52 < 2 ^ d) by lia. apply Z.pow_lt_mono_r_iff in H; lia. }
  unfold shl_align.
  destruct (fexp 53 1024 (d + E) - E) eqn:Hf; try reflexivity.
  unfold fexp, emin in Hf. lia.
Qed.

Lemma binary_round_exact M E :
  Zpos M < 2 ^ 53 -> -147 <= E <= 0 ->
  exists q e',
    binary_round 53 1024 false M E = S754_finite false q e' /\
    E - 52 <= e' /\ JS.scaled q e' = JS.scaled M E.
Proof.
  intros HM HE. unfold binary_round.
  pose proof (digits2_pos_bounds M) as Hd.
  set (d := Zpos (digits2_pos M)) in *.
  assert (Hd0 : 0 < d) by (unfold d; lia).
  assert (Hd53 : d <= 53).
  { assert (2 ^ (d - 1) < 2 ^ 53) by lia. apply Z.pow_lt_mono_r_iff in H; lia. }
  replace (fexp 53 1024 (d + E)) with (d + E - 53) by (unfold fexp, emin; lia).
  destruct (shl_align_spec M E (d + E - 53) ltac:(lia)) as [H2 H1].
  destruct (shl_align M E (d + E - 53)) as [mz ez]. simpl in H1, H2. subst ez.
  replace (E - (d + E - 53)) with (53 - d) in H1 by lia.
  assert (Hp : 0 < 2 ^ (53 - d)) by (apply Z.pow_pos_nonneg; lia).
  assert (Hmz : 2 ^ 52 <= Zpos mz < 2 ^ 53).
  { rewrite H1.
    replace (2 ^ 52) with (2 ^ (d - 1) * 2 ^ (53 - d))
      by (rewrite <- Z.pow_add_r by lia; f_equal; lia).
    replace (2 ^ 53) with (2 ^ d * 2 ^ (53 - d))
      by (rewrite <- Z.pow_add_r by lia; f_equal; lia).
    split; [apply Z.mul_le_mono_nonneg_r; lia|apply Z.mul_lt_mono_pos_r; lia]. }
  assert (Hdz : Zpos (digits2_pos mz) = 53)
    by (apply digits2_pos_unique; [lia|exact Hmz]).
  destruct (binary_round_aux_spec mz (d + E - 53)) as (q & e' & Hr & He' & HV & Hex);
    [lia|lia|].
  rewrite Hdz in He', HV, Hex. change (53 - 53) with 0 in *.
  rewrite Z.add_0_r in *. change (2 ^ 0) with 1 in Hex.
  rewrite Z.div_1_r in Hex. specialize (Hex (Z.mod_1_r _)).
  exists q, e'. split; [exact Hr|]. split; [lia|].
  unfold JS.scaled.
  replace (e' + 200) with (e' - (d + E - 53) + (d + E - 53 + 200)) by lia.
  rewrite Z.pow_add_r, Z.mul_assoc, Hex, H1 by lia.
  rewrite <- Z.mul_assoc, <- Z.pow_add_r by lia. do 2 f_equal. lia.
Qed.

(** A draw is zero or the exact value [k / 2^53]. *)
Lemma Math_random_spec random :
  JS.Math_random random = S754_zero false \/
  exists q e, JS.Math_random random = S754_finite false q e /\
              -161 <= e /\
              JS.scaled q e = Z.of_N (random mod 2 ^ 53) * 2 ^ 147.
Proof.
  unfold JS.Math_random.
  pose proof (N.mod_lt random (2 ^ 53) ltac:(discriminate)) as Hk.
  destruct (random mod 2 ^ 53)%N as [|p]; [left; reflexivity|right].
  destruct (binary_round_exact p (-53)) as (q & e & Hr & He & Hs); [lia|lia|].
  exists q, e. split; [exact Hr|]. split; [lia|]. exact Hs.
Qed.

(** [x * 9000] stays below 9000 for a draw below [(2^53 - 1) / 2^53]. *)
Lemma mul_9000 q e :
  -161 <= e -> JS.scaled q e <= (2 ^ 53 - 2) * 2 ^ 147 ->
  exists q' e',
    JS.mul (S754_finite false q e) (JS.of_Z 9000) = S754_finite false q' e' /\
    -200 <= e' /\ JS.scaled q' e' <= (9000 * 2 ^ 39 - 1) * 2 ^ 161.
Proof.
  intros He Hq.
  change (JS.of_Z 9000) with (S754_finite false 4947802324992000 (-39)).
  unfold JS.mul, SFmul. cbn [xorb].
  destruct (binary_round_aux_between (q * 4947802324992000) (e + -39)
              0 (9000 * 2 ^ 39 - 1)) as (q' & e' & Hr & He' & _ & Hs).
  - lia.
  - rewrite Pos2Z.inj_mul. lia.
  - reflexivity.
  - unfold JS.scaled in *. rewrite Pos2Z.inj_mul.
    assert (H : 2 ^ (e + 200) = 2 ^ 39 * 2 ^ (e + -39 + 200)).
    { rewrite <- Z.pow_add_r by lia. f_equal. lia. }
    rewrite H in Hq.
    assert (0 < 2 ^ (e + -39 + 200)) by (apply Z.pow_pos_nonneg; lia).
    set (P := 2 ^ (e + -39 + 200)) in *.
    change (2 ^ 39) with 549755813888 in *.
    change (2 ^ 53) with 9007199254740992 in *.
    change (2 ^ 147) with 178405961588244985132285746181186892047843328 in *.
    change (2 ^ 161) with 2923003274661805836407369665432566039311865085952 in *.
    lia.
  - exists q', e'. auto.
Qed.

(** [1000 + y] lies in [1000, 10000) for a positive [y] below 9000. *)
Lemma add_1000 q e :
  -200 <= e -> JS.scaled q e <= (9000 * 2 ^ 39 - 1) * 2 ^ 161 ->
  exists q' e',
    JS.add (JS.of_Z 1000) (S754_finite false q e) = S754_finite false q' e' /\
    -200 <= e' /\ 1000 * 2 ^ 200 <= JS.scaled q' e' < 10000 * 2 ^ 200.
Proof.
  intros He Hq.
  change (JS.of_Z 1000) with (S754_finite false 8796093022208000 (-43)).
  unfold JS.add, SFadd. cbn [cond_Zopp].
  set (ez := Z.min (-43) e).
  destruct (shl_align_spec 8796093022208000 (-43) ez ltac:(lia)) as [_ Ha].
  destruct (shl_align_spec q e ez ltac:(lia)) as [_ Hb].
  set (a := fst (shl_align 8796093022208000 (-43) ez)) in *.
  set (b := fst (shl_align q e ez)) in *.
  change (Zpos a + Zpos b) with (Zpos (a + b)).
  cbn [binary_normalize].
  assert (Hpa : 1 <= 2 ^ (-43 - ez)).
  { assert (0 < 2 ^ (-43 - ez)) by (apply Z.pow_pos_nonneg; lia). lia. }
  assert (Hez : 0 < 2 ^ (ez + 200)) by (apply Z.pow_pos_nonneg; lia).
  assert (HA : Zpos a * 2 ^ (ez + 200) = 1000 * 2 ^ 200).
  { rewrite Ha, <- Z.mul_assoc, <- Z.pow_add_r by lia.
    replace (-43 - ez + (ez + 200)) with 157 by lia. reflexivity. }
  assert (HB : Zpos b * 2 ^ (ez + 200) = JS.scaled q e).
  { unfold JS.scaled. rewrite Hb, <- Z.mul_assoc, <- Z.pow_add_r by lia.
    do 2 f_equal. lia. }
  rewrite binary_round_digits; [|rewrite Pos2Z.inj_add, Ha; nia|lia].
  destruct (binary_round_aux_between (a + b) ez
              (1000 * 2 ^ 39) (10000 * 2 ^ 39 - 1)) as (q' & e' & Hr & He' & Hs).
  - lia.
  - rewrite Pos2Z.inj_add, Ha. nia.
  - reflexivity.
  - unfold JS.scaled at 1 2. rewrite Pos2Z.inj_add, Z.mul_add_distr_r, HA, HB.
    assert (0 < JS.scaled q e) by (unfold JS.scaled; apply Z.mul_pos_pos; [lia|apply Z.pow_pos_nonneg; lia]).
    change (2 ^ 39) with 549755813888 in *.
    change (2 ^ 200) with 1606938044258990275541962092341162602522202993782792835301376 in *.
    change (2 ^ 161) with 2923003274661805836407369665432566039311865085952 in *.
    lia.
  - exists q', e'. split; [exact Hr|]. split; [exact He'|].
    change (2 ^ 39) with 549755813888 in *.
    change (2 ^ 200) with 1606938044258990275541962092341162602522202993782792835301376 in *.
    change (2 ^ 161) with 2923003274661805836407369665432566039311865085952 in *.
    lia.
Qed.

Lemma shiftl_scaled q e :
  -200 <= e -> Z.shiftl (Zpos q) e = JS.scaled q e / 2 ^ 200.
Proof.
  intros He. unfold JS.scaled. destruct (Z.le_gt_cases 0 e) as [H|H].
  - rewrite Z.shiftl_mul_pow2, Z.pow_add_r, Z.mul_assoc by lia.
    rewrite Z.div_mul; [reflexivity|]. apply Z.pow_nonzero; lia.
  - rewrite Z.shiftl_div_pow2 by lia.
    assert (H2 : 2 ^ 200 = 2 ^ (e + 200) * 2 ^ (- e)).
    { rewrite <- Z.pow_add_r by lia. f_equal. lia. }
    rewrite H2, (Z.mul_comm (Zpos q)), Z.div_mul_cancel_l; [reflexivity| |];
      apply Z.pow_nonzero; lia.
Qed.

(** Every generated key is the decimal text of an integer between 1000
    and 9999. *)
Lemma generateSecretKey_range random :
  exists n, (1000 <= n <= 9999)%N /\ generateSecretKey random = JS.toString n.
Proof.
  unfold generateSecretKey.
  destruct (N.eq_dec (random mod 2 ^ 53)%N (2 ^ 53 - 1)%N) as [Hmax|Hmax].
  { exists 9999%N. split; [lia|]. unfold JS.Math_random. rewrite Hmax.
    vm_compute. reflexivity. }
  destruct (Math_random_spec random) as [->|(q & e & -> & He & Hs)].
  { exists 1000%N. split; [lia|]. vm_compute. reflexivity. }
  pose proof (N.mod_lt random (2 ^ 53) ltac:(discriminate)) as Hk.
  destruct (mul_9000 q e He) as (q1 & e1 & -> & He1 & Hs1).
  { rewrite Hs. apply Z.mul_le_mono_nonneg_r; [lia|].
    change (2 ^ 53)%N with 9007199254740992%N in *. lia. }
  destruct (add_1000 q1 e1 He1 Hs1) as (q2 & e2 & -> & He2 & Hs2).
  cbn [JS.floor_toString]. rewrite shiftl_scaled by exact He2.
  set (z := JS.scaled q2 e2 / 2 ^ 200).
  assert (Hz : 1000 <= z < 10000).
  { unfold z. split.
    - apply Z.div_le_lower_bound; lia.
    - apply Z.div_lt_upper_bound; lia. }
  exists (Z.to_N z). split; [lia|reflexivity].
Qed.

End Binary64.

Lemma is_digit_pretty_N_char k : JS.is_digit (pretty_N_char k) = true.
Proof. unfold pretty_N_char. repeat case_match; reflexivity. Qed.

Lemma div10_bounds n lo hi :
  (10 * lo <= n <= 10 * hi + 9)%N -> (lo <= n / 10 <= hi)%N.
Proof.
  intros Hn. pose proof (N.div_mod n 10) as Hdiv.
  assert (n mod 10 < 10)%N as Hmod by (apply N.mod_lt; lia).
  set (q := (n / 10)%N) in *. set (m := (n mod 10)%N) in *. lia.
Qed.

(** The decimal text of an integer in [1000, 9999]: its four digits. *)
Lemma toString_four_digits n :
  (1000 <= n <= 9999)%N ->
  JS.toString n
  = String (pretty_N_char (n / 10 / 10 / 10 mod 10))
      (String (pretty_N_char (n / 10 / 10 mod 10))
         (String (pretty_N_char (n / 10 mod 10))
            (String (pretty_N_char (n mod 10)) EmptyString))).
Proof.
  intros Hn. unfold JS.toString, pretty, pretty_N.
  destruct (decide (n = 0)%N) as [->|_]; [lia|].
  assert (100 <= n / 10 <= 999)%N as H1 by (apply div10_bounds; lia).
  assert (10 <= n / 10 / 10 <= 99)%N as H2 by (apply div10_bounds; lia).
  assert (1 <= n / 10 / 10 / 10 <= 9)%N as H3 by (apply div10_bounds; lia).
  assert (n / 10 / 10 / 10 / 10 = 0)%N as H4 by (apply N.div_small; lia).
  rewrite 4!pretty_N_go_step by lia.
  rewrite H4, pretty_N_go_0. reflexivity.
Qed.





(** [player:joinRoom] on an existing room with a usable name. *)
Lemma player_joinRoom_joins st socket rid room nm given sk random :
  rooms st !! rid = Some room ->
  name_given nm = Some given ->
  let key := key_of sk random in
  let p := set_socketId
             (set_name (default (mkPlayer given key None JS.VNull)
                                (JS.get (players room) key)) given)
             (Some socket) in
  let room' := set_players room (JS.set (players room) key p) in
  player_joinRoom st socket rid nm sk random
  = ({| rooms := <[rid := room']> (rooms st);
        sockets := <[socket := {| role := Some role_player;
                                  data_roomId := Some rid;
                                  data_secretKey := Some key |}]> (sockets st) |},
     match hostSocketId room with
     | Some h => [Emit (to_socket h) (room_playersUpdate (online_names (players room')))]
     | None => []
     end ++
     [Callback (OkJoin given key (bool_decide (is_Some (JS.get (players room) key)))
                       (JS.or (cardNumbers p) JS.VNull) (summary_of rid room'))]).
Proof.
  intros Hr Hn key p room'. unfold player_joinRoom. rewrite Hr, Hn.
  unfold emitPlayersUpdate. rewrite lookup_insert_eq. reflexivity.
Qed.



(** ** What an event can touch *)

(** A handler that answers with a negative acknowledgement has changed
    nothing and emitted nothing: the answer is all it did. *)
Theorem failed_ack_no_mutation st socket ev m :
  In (Callback (Fail m)) (step st socket ev).2 ->
  (step st socket ev).1 = st /\ (step st socket ev).2 = [Callback (Fail m)].
Proof.
  destruct ev; unfold_handlers; unfold emitPlayersUpdate, callback_if;
    repeat case_match; cbn [fst snd In app];
    intros HIn; repeat (destruct HIn as [HIn|HIn]; try discriminate HIn);
    try contradiction; simplify_eq; split; reflexivity.
Qed.

Lemma step_other_rooms st socket ev rid :
  event_room st socket ev <> Some rid ->
  rooms (step st socket ev).1 !! rid = rooms st !! rid.
Proof.
  intros Hne.
  destruct ev; unfold_handlers; cbn [event_room] in Hne;
    repeat case_match; cbn [fst rooms]; try reflexivity;
    rewrite lookup_insert_ne; try reflexivity; simplify_eq; cbn in *; congruence.
Qed.

Lemma step_other_sockets st socket ev s :
  s <> socket ->
  sockets (step st socket ev).1 !! s = sockets st !! s.
Proof.
  intros Hne.
  destruct ev; unfold_handlers; repeat case_match; cbn [fst sockets];
    try reflexivity; rewrite lookup_insert_ne; congruence.
Qed.

(** An event leaves every room but the one it names as it was, and
    every [socket.data] but the one of the socket it arrived on. *)
Theorem step_touches_named_room st socket ev :
  (forall rid,
     event_room st socket ev <> Some rid ->
     rooms (step st socket ev).1 !! rid = rooms st !! rid) /\
  (forall s,
     s <> socket ->
     sockets (step st socket ev).1 !! s = sockets st !! s).
Proof.
  split; [intros rid; apply step_other_rooms | intros s; apply step_other_sockets].
Qed.

Lemma step_room_stays st socket ev rid :
  is_Some (rooms st !! rid) -> is_Some (rooms (step st socket ev).1 !! rid).
Proof.
  intros Hr.
  destruct ev; unfold_handlers; repeat case_match; cbn [fst rooms];
    try exact Hr; try split_lookup rid; eauto.
Qed.

(** No sequence of events removes a room from the registry. *)
Theorem rooms_never_deleted evs st rid :
  is_Some (rooms st !! rid) -> is_Some (rooms (run st evs) !! rid).
Proof.
  revert st. induction evs as [|[socket ev] evs IH]; intros st Hr; cbn.
  - exact Hr.
  - apply IH, step_room_stays, Hr.
Qed.

(** ** Invariants of the rooms *)

Lemma pretty_N_char_not_white_space k : JS.is_white_space (pretty_N_char k) = false.
Proof. unfold pretty_N_char. repeat case_match; reflexivity. Qed.

(** The key a player is stored under is not empty and is left alone by
    [trim], whether it was supplied or generated. *)
Lemma key_of_clean sk random :
  key_of sk random <> "" /\ JS.trim (key_of sk random) = key_of sk random.
Proof.
  unfold key_of.
  set (k := JS.trim match sk with
                    | Some s => if JS.truthy s then s else ""
                    | None => ""
                    end).
  destruct (JS.truthy k) eqn:E.
  - split; [apply truthy_true, E | apply trim_idem].
  - destruct (generateSecretKey_range random) as (n & Hn & ->).
    rewrite (toString_four_digits n Hn). split; [discriminate|].
    apply trim_no_white_space. cbn.
    rewrite !pretty_N_char_not_white_space. auto.
Qed.

Lemma name_given_not_blank nm given :
  name_given nm = Some given -> nm = Some given /\ JS.trim given <> "".
Proof.
  unfold name_given. destruct nm as [s|]; [|discriminate].
  destruct (JS.truthy s); cbn; [|discriminate].
  destruct (JS.truthy (JS.trim s)) eqn:E; [|discriminate].
  intros [= <-]. split; [reflexivity | apply truthy_true, E].
Qed.

(** How the rooms of the running server come to be: a property of
    (id, room) pairs that holds of a new room and is kept by each way a
    handler updates a room holds of every room of every reachable state. *)
Lemma reachable_room_ind (P : string -> Room -> Prop) :
  (forall id socket mn mx,
     invalid_range mn mx = false -> JS.trim id = id ->
     P id {| roomId := id; hostSocketId := Some socket; minNumber := mn;
             maxNumber := mx; drawnNumbers := []; players := [] |}) ->
  (forall rid r h, P rid r -> P rid (set_host r h)) ->
  (forall rid r mn mx,
     P rid r -> invalid_range mn mx = false -> P rid (set_range r mn mx)) ->
  (forall rid r n,
     P rid r -> JS.isFinite n = true -> JS.includes (drawnNumbers r) n = false ->
     P rid (set_drawnNumbers r (drawnNumbers r ++ [n]))) ->
  (forall rid r key p p',
     P rid r -> JS.get (players r) key = Some p ->
     secretKey p' = secretKey p ->
     name p' = name p \/ JS.trim (name p') <> "" ->
     P rid (set_players r (JS.set (players r) key p'))) ->
  (forall rid r key nm socket,
     P rid r -> JS.get (players r) key = None ->
     key <> "" -> JS.trim key = key -> JS.trim nm <> "" ->
     P rid (set_players r (JS.set (players r) key
                                  (mkPlayer nm key (Some socket) JS.VNull)))) ->
  forall st, reachable st ->
  forall rid r, rooms st !! rid = Some r -> P rid r.
Proof.
  intros Hnew Hhost Hrange Hdraw Hupd Hadd st Hst.
  induction Hst as [|st socket ev Hst IH]; intros rid r Hr.
  - cbn in Hr. rewrite lookup_empty in Hr. discriminate.
  - revert Hr.
    destruct ev; unfold_handlers; repeat case_match; cbn [fst rooms]; intros Hr;
      try (apply (IH rid r Hr)); try split_lookup rid; simplify_eq;
      try (eapply IH; eassumption).
    + apply Hrange; [apply Hhost, (IH _ _ ltac:(eassumption)) | assumption].
    + apply Hnew; [assumption|].
      match goal with H : inputId_of _ = Some _ |- _ =>
        apply inputId_of_fixpoint in H; apply H end.
    + apply Hnew; [assumption | apply random_roomId_trimmed].
    + match goal with H : name_given _ = Some _ |- _ =>
        apply name_given_not_blank in H as [_ Hnm] end.
      destruct (key_of_clean secretKey0 random) as [Hk1 Hk2].
      destruct (JS.get (players r0) (key_of secretKey0 random)) as [p|] eqn:Hp;
        cbn [default].
      * eapply Hupd; [eapply IH; eassumption | exact Hp | reflexivity | right; exact Hnm].
      * apply Hadd; try assumption. eapply IH; eassumption.
    + eapply Hupd; [eapply IH; eassumption | eassumption | reflexivity | left; reflexivity].
    + apply Hdraw; [eapply IH; eassumption | |].
      * match goal with H : negb (JS.isFinite _) = false |- _ =>
          apply negb_false_iff in H; exact H end.
      * match goal with H : negb (JS.includes _ _) = true |- _ =>
          apply negb_true_iff in H; exact H end.
    + rewrite set_drawnNumbers_id. eapply IH; eassumption.
    + apply Hhost. eapply IH; eassumption.
    + eapply Hupd; [eapply IH; eassumption | eassumption | reflexivity | left; reflexivity].
Qed.

(** In every reachable state a room is stored under its own [roomId],
    its range is finite with [minNumber <= maxNumber], and every drawn
    number is finite. *)
Theorem reachable_room_wf st rid r :
  reachable st ->
  rooms st !! rid = Some r ->
  roomId r = rid /\
  JS.isFinite (minNumber r) = true /\
  JS.isFinite (maxNumber r) = true /\
  JS.gt (minNumber r) (maxNumber r) = false /\
  Forall (fun n => JS.isFinite n = true) (drawnNumbers r).
Proof.
  intros Hst Hr.
  assert (forall mn mx, invalid_range mn mx = false ->
            JS.isFinite mn = true /\ JS.isFinite mx = true /\ JS.gt mn mx = false)
    as Hvalid.
  { intros mn mx H. unfold invalid_range in H.
    apply orb_false_iff in H as [H Hgt]. apply orb_false_iff in H as [H1 H2].
    apply negb_false_iff in H1, H2. auto. }
  revert st Hst rid r Hr.
  apply (reachable_room_ind
           (fun rid r =>
              roomId r = rid /\
              JS.isFinite (minNumber r) = true /\
              JS.isFinite (maxNumber r) = true /\
              JS.gt (minNumber r) (maxNumber r) = false /\
              Forall (fun n => JS.isFinite n = true) (drawnNumbers r))).
  - intros id socket mn mx Hv _. cbn. destruct (Hvalid mn mx Hv) as (? & ? & ?).
    repeat split; auto.
  - intros rid r h H. exact H.
  - intros rid r mn mx (H1 & _ & _ & _ & H5) Hv. cbn.
    destruct (Hvalid mn mx Hv) as (? & ? & ?). repeat split; auto.
  - intros rid r n (H1 & H2 & H3 & H4 & H5) Hn _. cbn.
    repeat split; auto. apply Forall_app. split; [exact H5 | constructor; auto].
  - intros rid r key p p' H _ _ _. exact H.
  - intros rid r key nm socket H _ _ _ _. exact H.
Qed.

(** *** Player records *)

Lemma In_set {A} (o : JS.object A) k v x :
  In x (JS.set o k v) -> x = (k, v) \/ In x o.
Proof.
  induction o as [|[k' v'] o IH]; cbn.
  - intros [<-|[]]. left. reflexivity.
  - destruct (String.eqb k' k) eqn:E; cbn.
    + apply String.eqb_eq in E. subst k'. intros [<-|H]; auto.
    + intros [<-|H]; auto. destruct (IH H); auto.
Qed.

Lemma get_In {A} (o : JS.object A) k v : JS.get o k = Some v -> In (k, v) o.
Proof.
  induction o as [|[k' v'] o IH]; cbn; [discriminate|].
  destruct (String.eqb k' k) eqn:E.
  - apply String.eqb_eq in E. subst k'. intros [= ->]. left. reflexivity.
  - intros H. right. apply IH, H.
Qed.

Lemma get_None_keys {A} (o : JS.object A) k : JS.get o k = None -> ~ In k o.*1.
Proof.
  induction o as [|[k' v'] o IH]; cbn; [auto|].
  destruct (String.eqb k' k) eqn:E; [discriminate|].
  apply String.eqb_neq in E. intros H [Hk|Hk]; [contradiction | apply (IH H Hk)].
Qed.

Lemma In_get {A} (o : JS.object A) k v :
  List.NoDup o.*1 -> In (k, v) o -> JS.get o k = Some v.
Proof.
  induction o as [|[k' v'] o IH]; cbn; [intros _ []|].
  intros Hnd [[= -> ->]|Hin].
  - rewrite String.eqb_refl. reflexivity.
  - inversion Hnd as [|? ? Hk Hnd']; subst.
    destruct (String.eqb k' k) eqn:E.
    + apply String.eqb_eq in E. subst k'. exfalso. apply Hk.
      apply (in_map fst) in Hin. exact Hin.
    + apply IH; assumption.
Qed.

Lemma NoDup_keys_set {A} (o : JS.object A) k v :
  List.NoDup o.*1 -> List.NoDup (JS.set o k v).*1.
Proof.
  intros Hnd. destruct (JS.get o k) as [v0|] eqn:E.
  - rewrite keys_set_existing by eauto. exact Hnd.
  - rewrite (set_new o k v E), fmap_app. cbn.
    apply List.NoDup_app; [exact Hnd | |].
    + constructor; [intros [] | constructor].
    + intros x Hx [<-|[]]. exact (get_None_keys o k E Hx).
Qed.

(** In every state reached through events that name no member of
    [Object.prototype], the keys of a room's players are pairwise
    different, and each record is stored under its own [secretKey],
    which is not empty and has no surrounding white space; its name is
    not blank.  Looking up a key that is no member name of
    [Object.prototype] finds the one record that has it. *)
Theorem reachable_players_wf st rid r :
  reachable_own st ->
  rooms st !! rid = Some r ->
  List.NoDup (players r).*1 /\
  (forall k p,
     In (k, p) (players r) ->
     secretKey p = k /\ k <> "" /\ JS.trim k = k /\ JS.trim (name p) <> "") /\
  (forall k p,
     JS.inherited k = false ->
     In (k, p) (players r) <-> JS.get (players r) k = Some p).
Proof.
  intros Hst Hr. apply reachable_own_reachable in Hst.
  assert (List.NoDup (players r).*1 /\
          (forall k p,
             In (k, p) (players r) ->
             secretKey p = k /\ k <> "" /\ JS.trim k = k /\ JS.trim (name p) <> ""))
    as [Hnd Hrec].
  { revert st Hst rid r Hr.
    apply (reachable_room_ind
             (fun _ r =>
                List.NoDup (players r).*1 /\
                (forall k p,
                   In (k, p) (players r) ->
                   secretKey p = k /\ k <> "" /\ JS.trim k = k /\
                   JS.trim (name p) <> ""))).
    - intros id socket mn mx _ _. cbn. split; [constructor | intros k p []].
    - intros rid r h H. exact H.
    - intros rid r mn mx H _. exact H.
    - intros rid r n H _ _. exact H.
    - intros rid r key p p' [Hnd Hrec] Hp Hkey Hname. cbn. split.
      + apply NoDup_keys_set, Hnd.
      + intros k q Hin. apply In_set in Hin as [[= -> ->]|Hin]; [|apply Hrec, Hin].
        destruct (Hrec key p (get_In _ _ _ Hp)) as (H1 & H2 & H3 & H4).
        repeat split; try assumption; [congruence|].
        destruct Hname as [->|Hn]; assumption.
    - intros rid r key nm socket [Hnd Hrec] Hp Hk1 Hk2 Hnm. cbn. split.
      + apply NoDup_keys_set, Hnd.
      + intros k q Hin. apply In_set in Hin as [[= -> ->]|Hin]; [|apply Hrec, Hin].
        cbn. auto. }
  split; [exact Hnd|]. split; [exact Hrec|].
  intros k p _. split; [apply In_get, Hnd | apply get_In].
Qed.

(** *** What a room keeps *)

Lemma keys_set {A} (o : JS.object A) k v :
  (JS.set o k v).*1 = o.*1 \/
  (JS.get o k = None /\ (JS.set o k v).*1 = o.*1 ++ [k]).
Proof.
  destruct (JS.get o k) as [v0|] eqn:E.
  - left. apply keys_set_existing. eauto.
  - right. split; [reflexivity|]. rewrite (set_new o k v E), fmap_app. reflexivity.
Qed.

Lemma step_players st socket ev rid r :
  rooms st !! rid = Some r ->
  ~ generated_id_taken st ev ->
  exists r', rooms (step st socket ev).1 !! rid = Some r' /\
             (players r).*1 `prefix_of` (players r').*1.
Proof.
  intros Hr Hfresh.
  assert (forall k v, (players r).*1 `prefix_of` (JS.set (players r) k v).*1) as Hset.
  { intros k v. destruct (keys_set (players r) k v) as [->|[_ ->]];
      [reflexivity | apply prefix_app_r; reflexivity]. }
  destruct ev; unfold_handlers; repeat case_match; cbn [fst rooms];
    try (exists r; split; [assumption | reflexivity]);
    try split_lookup rid; simplify_eq;
    try (eexists; split; [first [eassumption | reflexivity] | cbn; first [reflexivity | apply Hset]]).
  exfalso. apply Hfresh. cbn. split; [assumption | eauto].
Qed.

(** Over a sequence of events none of which hits a taken room id, no
    player record is removed and no key changes place: the keys of a
    room's players stay a prefix of the later keys. *)
Theorem players_only_grow evs st rid r :
  rooms st !! rid = Some r ->
  collision_free st evs ->
  exists r', rooms (run st evs) !! rid = Some r' /\
             (players r).*1 `prefix_of` (players r').*1.
Proof.
  revert st r. induction evs as [|[socket ev] evs IH]; intros st r Hr Hfree.
  - exists r. split; [exact Hr | reflexivity].
  - destruct Hfree as [Hfresh Hfree].
    destruct (step_players st socket ev rid r Hr Hfresh) as (r1 & Hr1 & Hpre1).
    destruct (IH _ r1 Hr1 Hfree) as (r' & Hr' & Hpre).
    exists r'. split; [exact Hr'|]. etransitivity; eassumption.
Qed.

Lemma step_card_kept st socket ev rid r key p :
  rooms st !! rid = Some r ->
  JS.get (players r) key = Some p ->
  ~ generated_id_taken st ev ->
  (forall c cb, ev <> PlayerSaveCard rid key c cb) ->
  exists r' p',
    rooms (step st socket ev).1 !! rid = Some r' /\
    JS.get (players r') key = Some p' /\
    secretKey p' = secretKey p /\
    cardNumbers p' = cardNumbers p.
Proof.
  intros Hr Hp Hfresh Hsave.
  assert (forall k q,
            (k = key -> secretKey q = secretKey p /\ cardNumbers q = cardNumbers p) ->
            exists p', JS.get (JS.set (players r) k q) key = Some p' /\
                       secretKey p' = secretKey p /\ cardNumbers p' = cardNumbers p)
    as Hset.
  { intros k q Hq. destruct (decide (k = key)) as [->|Hk].
    - rewrite get_set_eq. exists q. destruct (Hq eq_refl). auto.
    - rewrite get_set_ne by exact Hk. eauto. }
  destruct ev; unfold_handlers; repeat case_match; cbn [fst rooms];
    try (exists r, p; repeat split; assumption);
    try split_lookup rid; simplify_eq;
    try (eexists; eexists; split; [eassumption | repeat split; eassumption]);
    try (eexists; exists p; split; [reflexivity | cbn; auto; fail]).
  - exfalso. apply Hfresh. cbn. split; [assumption | eauto].
  - edestruct Hset as (p' & Hp' & Hs1 & Hs2);
      [|eexists; exists p'; split; [reflexivity | cbn; split; [exact Hp' | auto]]].
    intros ->. rewrite Hp. cbn. auto.
  - edestruct Hset as (p' & Hp' & Hs1 & Hs2);
      [|eexists; exists p'; split; [reflexivity | cbn; split; [exact Hp' | auto]]].
    intros ->. exfalso. eapply Hsave. reflexivity.
  - edestruct Hset as (p' & Hp' & Hs1 & Hs2);
      [|eexists; exists p'; split; [reflexivity | cbn; split; [exact Hp' | auto]]].
    intros Hk. rewrite Hk in *. simplify_eq. cbn. auto.
Qed.

(** ** Who can change what *)

(** The draw history of a room changes only through a [host:drawNumber]
    for that room sent by its bound host with a finite number, which is
    then pushed at the end; or it is emptied with the room when a
    [host:createRoom] without a room id and with a valid range generates
    the room's id. *)
Theorem history_changes_only_by_host st socket ev rid r r' :
  rooms st !! rid = Some r ->
  rooms (step st socket ev).1 !! rid = Some r' ->
  drawnNumbers r' <> drawnNumbers r ->
  (exists number callback,
     ev = HostDrawNumber rid number callback /\
     hostSocketId r = Some socket /\
     JS.isFinite (Number number) = true /\
     JS.includes (drawnNumbers r) (Number number) = false /\
     drawnNumbers r' = drawnNumbers r ++ [Number number]) \/
  (replaces_room rid ev /\ drawnNumbers r' = []).
Proof.
  intros Hr.
  destruct ev; unfold_handlers; repeat case_match; cbn [fst rooms]; intros Hr' Hne;
    try (exfalso; simplify_eq; apply Hne; reflexivity; fail);
    try split_lookup rid; simplify_eq;
    try (exfalso; apply Hne; reflexivity; fail).
  - right. split; [|reflexivity]. cbn. auto.
  - left. exists number, callback. split; [reflexivity|].
    repeat match goal with
           | H : negb _ = true |- _ => apply negb_true_iff in H
           | H : negb _ = false |- _ => apply negb_false_iff in H
           | H : bool_decide _ = true |- _ => apply bool_decide_eq_true in H
           end.
    repeat split; try assumption; try reflexivity. congruence.
Qed.

(** The host binding of a room changes only through [host:createRoom],
    which binds the calling socket, or through [disconnect] of a socket
    whose [socket.data] names the room with the role of host, which
    clears it.  No player event and no draw changes it. *)
Theorem host_binding_changes st socket ev rid r r' :
  rooms st !! rid = Some r ->
  rooms (step st socket ev).1 !! rid = Some r' ->
  hostSocketId r' <> hostSocketId r ->
  (exists requested mn mx random,
     ev = HostCreateRoom requested mn mx random /\
     invalid_range (Number mn) (Number mx) = false /\
     hostSocketId r' = Some socket) \/
  (ev = Disconnect /\
   role (data_of st socket) = Some role_host /\
   data_roomId (data_of st socket) = Some rid /\
   hostSocketId r' = None).
Proof.
  intros Hr.
  destruct ev; unfold_handlers; repeat case_match; cbn [fst rooms]; intros Hr' Hne;
    try (exfalso; simplify_eq; apply Hne; reflexivity; fail);
    try split_lookup rid; simplify_eq;
    try (exfalso; apply Hne; reflexivity; fail);
    try (left; do 4 eexists; split; [reflexivity | split; [assumption | reflexivity]]).
  right. repeat split; assumption.
Qed.




(** ** The list of online players *)

Lemma indexed_named_Permutation {A} (o : JS.object A) :
  Permutation ((JS.indexed o).*2 ++ JS.named o) o.*2.
Proof.
  induction o as [|[k v] o IH]; cbn; [constructor|].
  destruct (JS.array_index k); cbn.
  - constructor. exact IH.
  - etransitivity; [symmetry; apply Permutation_middle|]. constructor. exact IH.
Qed.

Lemma Object_values_Permutation {A} (o : JS.object A) :
  Permutation (JS.Object_values o) o.*2.
Proof.
  unfold JS.Object_values. etransitivity; [|apply indexed_named_Permutation].
  apply Permutation_app_tail, fmap_Permutation, merge_sort_Permutation.
Qed.

Lemma filter_Permutation_bool {A} (f : A -> bool) l l' :
  Permutation l l' -> Permutation (List.filter f l) (List.filter f l').
Proof.
  induction 1 as [|x l l' _ IH|x y l|l l' l'' _ IH1 _ IH2]; cbn.
  - constructor.
  - destruct (f x); [constructor|]; exact IH.
  - destruct (f x), (f y); try reflexivity. constructor.
  - etransitivity; eassumption.
Qed.

Lemma Object_values_named {A} (o : JS.object A) :
  (forall k, In k o.*1 -> JS.array_index k = None) ->
  JS.Object_values o = o.*2.
Proof.
  intros Hk. unfold JS.Object_values.
  assert (JS.indexed o = [] /\ JS.named o = o.*2) as [-> ->]; [|reflexivity].
  induction o as [|[k v] o IH]; cbn; [auto|].
  rewrite (Hk k) by (left; reflexivity).
  destruct IH as [-> ->]; [|auto]. intros k' Hk'. apply Hk. right. exact Hk'.
Qed.

(** The names sent to the host are the names of the records that have
    a socket, one entry per such record and none for an offline one, in
    the order of [Object.values]: a rearrangement of the join order, and
    the join order itself when no key is the decimal text of an array
    index. *)
Theorem online_names_spec (ps : JS.object Player) :
  Permutation (online_names ps) (map name (List.filter online ps.*2)) /\
  (forall nm,
     In nm (online_names ps) <->
     exists k p, In (k, p) ps /\ socketId p <> None /\ name p = nm) /\
  ((forall k, In k ps.*1 -> JS.array_index k = None) ->
   online_names ps = map name (List.filter online ps.*2)).
Proof.
  assert (Permutation (online_names ps) (map name (List.filter online ps.*2))) as Hperm.
  { unfold online_names. apply Permutation_map, filter_Permutation_bool,
      Object_values_Permutation. }
  split; [exact Hperm|]. split.
  - intros nm. split.
    + intros Hin. apply (Permutation_in _ Hperm) in Hin.
      apply in_map_iff in Hin as (p & <- & Hp).
      apply filter_In in Hp as [Hp Hon].
      apply in_map_iff in Hp as ([k p'] & Hkp & Hin). cbn in Hkp. subst p'.
      exists k, p. split; [exact Hin|]. split; [|reflexivity].
      unfold online in Hon. destruct (socketId p); [discriminate | discriminate Hon].
    + intros (k & p & Hin & Hs & <-).
      apply (Permutation_in _ (Permutation_sym Hperm)).
      apply in_map. apply filter_In. split.
      * apply in_map_iff. exists (k, p). auto.
      * unfold online. destruct (socketId p); [reflexivity | contradiction].
  - intros Hk. unfold online_names. rewrite (Object_values_named ps Hk). reflexivity.
Qed.

(** ** [player:saveCard] *)

Lemma set_set {A} (o : JS.object A) k v1 v2 :
  JS.set (JS.set o k v1) k v2 = JS.set o k v2.
Proof.
  induction o as [|[k' v'] o IH]; cbn.
  - rewrite String.eqb_refl. reflexivity.
  - destruct (String.eqb k' k) eqn:E; cbn; rewrite E; [reflexivity|].
    rewrite IH. reflexivity.
Qed.

(** Saving a card twice is saving the second card: the first save
    leaves no trace, and saving the same card again changes nothing. *)
Theorem saveCard_last_write_wins st rid key c1 c2 cb1 cb2 :
  player_saveCard (player_saveCard st rid key c1 cb1).1 rid key c2 cb2
  = player_saveCard st rid key c2 cb2.
Proof.
  unfold player_saveCard.
  destruct (rooms st !! rid) as [r|] eqn:Hr; cbn [fst]; [|rewrite Hr; reflexivity].
  destruct (JS.get (players r) key) as [p|] eqn:Hp; cbn [fst rooms];
    [|rewrite Hr, Hp; reflexivity].
  rewrite lookup_insert_eq. cbn [players set_players]. rewrite get_set_eq.
  rewrite insert_insert_eq, set_set. reflexivity.
Qed.


Lemma run_card_kept evs st rid r key p :
  rooms st !! rid = Some r ->
  JS.get (players r) key = Some p ->
  card_untouched st rid key evs ->
  exists r' p',
    rooms (run st evs) !! rid = Some r' /\
    JS.get (players r') key = Some p' /\
    secretKey p' = secretKey p /\
    cardNumbers p' = cardNumbers p.
Proof.
  revert st r p. induction evs as [|[socket ev] evs IH]; intros st r p Hr Hp Hevs.
  - exists r, p. auto.
  - destruct Hevs as (Hfresh & Hsave & Hevs).
    destruct (step_card_kept st socket ev rid r key p Hr Hp Hfresh Hsave)
      as (r1 & p1 & Hr1 & Hp1 & Hk1 & Hc1).
    destruct (IH _ r1 p1 Hr1 Hp1 Hevs) as (r' & p' & Hr' & Hp' & Hk' & Hc').
    exists r', p'. repeat split; try assumption; congruence.
Qed.

(** A player's record keeps its key and its card through every sequence
    of events that holds no [player:saveCard] for that room and key (and
    no [host:createRoom] whose generated id is taken): joining again,
    disconnecting, draws and other players' events never lose a saved
    card. *)
Theorem card_kept evs st rid r key p :
  rooms st !! rid = Some r ->
  JS.get (players r) key = Some p ->
  card_untouched st rid key evs ->
  exists r' p',
    rooms (run st evs) !! rid = Some r' /\
    JS.get (players r') key = Some p' /\
    secretKey p' = secretKey p /\
    cardNumbers p' = cardNumbers p.
Proof. apply run_card_kept. Qed.

(** A card that was saved comes back: after a [player:saveCard] of an
    array or object (any truthy value) for an existing record, and any
    events that are no other save for that key, a [player:joinRoom] with
    the key is answered with [rejoin: true] and that card. *)
Theorem saved_card_returned st rid r key p card cb evs socket nm given sk random :
  rooms st !! rid = Some r ->
  JS.get (players r) key = Some p ->
  JS.ToBoolean card = true ->
  card_untouched (player_saveCard st rid key card cb).1 rid key evs ->
  key_of sk random = key ->
  name_given nm = Some given ->
  exists r' effs,
    rooms (run (player_saveCard st rid key card cb).1 evs) !! rid = Some r' /\
    (player_joinRoom (run (player_saveCard st rid key card cb).1 evs)
                     socket rid nm sk random).2
    = effs ++ [Callback (OkJoin given key true card (summary_of rid r'))].
Proof.
  intros Hr Hp Hcard Hevs Hkey Hn.
  set (st1 := (player_saveCard st rid key card cb).1) in *.
  assert (exists r1, rooms st1 !! rid = Some r1 /\
                     JS.get (players r1) key = Some (set_cardNumbers p card))
    as (r1 & Hr1 & Hp1).
  { subst st1. unfold player_saveCard. rewrite Hr, Hp. cbn [fst rooms].
    eexists. split; [apply lookup_insert_eq | cbn; apply get_set_eq]. }
  destruct (run_card_kept evs st1 rid r1 key _ Hr1 Hp1 Hevs)
    as (r' & p' & Hr' & Hp' & _ & Hc').
  pose proof (player_joinRoom_joins (run st1 evs) socket rid r' nm given sk random
                Hr' Hn) as E.
  cbv zeta in E. rewrite Hkey, Hp' in E. cbn [default] in E.
  exists r'. eexists. split; [exact Hr'|]. rewrite E. cbn [snd].
  rewrite bool_decide_eq_true_2 by eauto.
  unfold id. cbn [cardNumbers set_socketId set_name]. rewrite Hc'.
  cbn [cardNumbers set_cardNumbers].
  unfold JS.or. rewrite Hcard. reflexivity.
Qed.

(** ** Hosts *)

(** A host that moves on strands its room.  When the bound host of a
    room sends an event that names another room and leaves its
    [socket.data] naming another room (it created a second room, or
    joined one as a player), its [disconnect] does not release the first
    room: the room keeps the departed socket as host, and every
    [host:createRoom] for it is refused without effect. *)
Theorem host_moves_on st h ev rid r rid2 :
  rooms st !! rid = Some r ->
  hostSocketId r = Some h ->
  event_room st h ev <> Some rid ->
  data_roomId (data_of (step st h ev).1 h) = Some rid2 ->
  rid2 <> rid ->
  rooms (disconnect (step st h ev).1 h).1 !! rid = Some r /\
  forall socket requested mn mx random,
    inputId_of requested = Some rid ->
    (host_createRoom (disconnect (step st h ev).1 h).1 socket requested mn mx random).1
    = (disconnect (step st h ev).1 h).1 /\
    (invalid_range (Number mn) (Number mx) = false ->
     (host_createRoom (disconnect (step st h ev).1 h).1 socket requested mn mx random).2
     = [Callback (Fail (Some HostAlreadyPresentError))]).
Proof.
  intros Hr Hh Hev Hdata Hne.
  assert (rooms (disconnect (step st h ev).1 h).1 !! rid = Some r) as Hr2.
  { change (disconnect (step st h ev).1 h) with (step (step st h ev).1 h Disconnect).
    rewrite step_other_rooms by (cbn [event_room]; rewrite Hdata; congruence).
    rewrite step_other_rooms by exact Hev. exact Hr. }
  split; [exact Hr2|].
  intros socket requested mn mx random Hid.
  destruct (host_createRoom_refuses _ socket requested rid r h mn mx random Hid Hr2 Hh)
    as [H1 H2].
  split; [exact H1|]. intros Hv. rewrite (H2 Hv). reflexivity.
Qed.


(** ** Texts *)

Lemma trim_empty_truthy s : JS.trim s <> "" -> JS.truthy s = true.
Proof.
  intros H. apply truthy_true. intros ->. apply H. reflexivity.
Qed.

(** Surrounding white space in a requested room id or in a supplied
    key does not matter, and a blank one counts as none: the handlers
    resolve both through [trim]. *)
Theorem requests_are_trimmed st socket s :
  (forall mn mx random,
     host_createRoom st socket (Some s) mn mx random
     = host_createRoom st socket
         (if JS.truthy (JS.trim s) then Some (JS.trim s) else None) mn mx random) /\
  (forall rid nm random,
     player_joinRoom st socket rid nm (Some s) random
     = player_joinRoom st socket rid nm
         (if JS.truthy (JS.trim s) then Some (JS.trim s) else None) random).
Proof.
  assert (inputId_of (Some s)
          = inputId_of (if JS.truthy (JS.trim s) then Some (JS.trim s) else None))
    as Hid.
  { unfold inputId_of. destruct (JS.truthy (JS.trim s)) eqn:E.
    - rewrite (trim_empty_truthy s) by (apply truthy_true, E).
      rewrite trim_idem, E. reflexivity.
    - destruct (JS.truthy s); reflexivity. }
  assert (forall random,
            key_of (Some s) random
            = key_of (if JS.truthy (JS.trim s) then Some (JS.trim s) else None) random)
    as Hkey.
  { intros random. unfold key_of. destruct (JS.truthy (JS.trim s)) eqn:E.
    - rewrite (trim_empty_truthy s) by (apply truthy_true, E).
      rewrite E, trim_idem, E. reflexivity.
    - destruct (JS.truthy s) eqn:Es.
      + rewrite E. reflexivity.
      + apply truthy_false in Es. subst s. reflexivity. }
  split.
  - intros mn mx random. unfold host_createRoom. rewrite Hid. reflexivity.
  - intros rid nm random. unfold player_joinRoom. rewrite Hkey. reflexivity.
Qed.

Lemma digit36_base36 d : base36 (digit36 d) = true.
Proof.
  unfold digit36. generalize (N.to_nat (d mod 36)). intros n.
  do 37 (destruct n as [|n]; [reflexivity|]). reflexivity.
Qed.

Lemma substring_take n (l : list ascii) :
  substring 0 n (string_of_list_ascii l) = string_of_list_ascii (take n l).
Proof.
  revert l. induction n as [|n IH]; intros [|c l]; cbn; try reflexivity.
  rewrite IH. reflexivity.
Qed.

(** A generated room id is made of at most six of the characters
    [0-9a-z]: the first six base-36 digits of the draw, fewer when the
    draw has fewer, none when the draw is zero. *)
Theorem random_roomId_shape digits :
  random_roomId digits = string_of_list_ascii (map digit36 (take 6 digits)) /\
  String.length (random_roomId digits) = Nat.min 6 (length digits) /\
  forallb base36 (list_ascii_of_string (random_roomId digits)) = true.
Proof.
  assert (random_roomId digits = string_of_list_ascii (map digit36 (take 6 digits))) as E.
  { unfold random_roomId, slice, random_toString36.
    destruct digits as [|d0 digits]; [reflexivity|].
    change (substring 2 (8 - 2)
              (String.append "0." (string_of_list_ascii (map digit36 (d0 :: digits)))))
      with (substring 0 6 (string_of_list_ascii (map digit36 (d0 :: digits)))).
    rewrite substring_take, <- fmap_take. reflexivity. }
  split; [exact E|]. rewrite E. split.
  - clear E. generalize 6%nat. intros n. revert digits.
    induction n as [|n IH]; intros [|d l]; cbn; try reflexivity.
    rewrite IH. reflexivity.
  - rewrite list_ascii_of_string_of_list_ascii. clear E.
    induction (take 6 digits) as [|d l IH]; cbn [map forallb]; [reflexivity|].
    rewrite digit36_base36. exact IH.
Qed.

(** ** More on sockets and players *)

(** In every state reached through events that name no member of
    [Object.prototype], a [socket.data] with a role names a room of the
    registry: [disconnect] never finds its room missing. *)
Theorem socket_data_names_room st s d ro :
  reachable_own st ->
  sockets st !! s = Some d ->
  role d = Some ro ->
  exists rid, data_roomId d = Some rid /\ is_Some (rooms st !! rid).
Proof.
  intros Hst. apply reachable_own_reachable in Hst. revert s d ro.
  induction Hst as [|st socket ev Hst IH]; intros s d ro Hd Hro.
  - cbn in Hd. rewrite lookup_empty in Hd. discriminate.
  - destruct (decide (s = socket)) as [->|Hne].
    + assert (sockets (step st socket ev).1 !! socket = sockets st !! socket \/
              exists rid, data_roomId d = Some rid /\
                          is_Some (rooms (step st socket ev).1 !! rid)) as [E|H].
      { revert Hd. destruct ev; unfold_handlers; repeat case_match;
          cbn [fst sockets rooms]; try (left; reflexivity);
          rewrite lookup_insert_eq; intros [= <-]; right; cbn;
          eexists; (split; [reflexivity|]); rewrite lookup_insert_eq; eauto. }
      * rewrite E in Hd. destruct (IH _ _ _ Hd Hro) as (rid & Hrid & Hroom).
        exists rid. split; [exact Hrid | apply step_room_stays, Hroom].
      * exact H.
    + rewrite step_other_sockets in Hd by exact Hne.
      destruct (IH _ _ _ Hd Hro) as (rid & Hrid & Hroom).
      exists rid. split; [exact Hrid | apply step_room_stays, Hroom].
Qed.



Lemma N_of_ascii_pretty_N_char d :
  (d < 10)%N -> (N_of_ascii (pretty_N_char d) - 48 = d)%N.
Proof.
  intros Hd.
  assert (d = 0 \/ d = 1 \/ d = 2 \/ d = 3 \/ d = 4 \/ d = 5 \/ d = 6 \/ d = 7 \/
          d = 8 \/ d = 9)%N as H by lia.
  repeat (destruct H as [->|H]; [reflexivity|]). subst d. reflexivity.
Qed.

(** A generated key is the canonical decimal text of an integer between
    1000 and 9999, hence an array index for [Object.values]. *)
Lemma array_index_generateSecretKey random :
  exists n, (1000 <= n <= 9999)%N /\
            JS.array_index (generateSecretKey random) = Some n.
Proof.
  destruct (generateSecretKey_range random) as (n & Hn & ->).
  exists n. split; [exact Hn|]. rewrite (toString_four_digits n Hn).
  assert (1 <= n / 10 / 10 / 10 <= 9)%N as H3.
  { apply div10_bounds. apply div10_bounds. apply div10_bounds. lia. }
  pose proof (N.div_mod n 10 ltac:(lia)) as E0.
  pose proof (N.div_mod (n / 10) 10 ltac:(lia)) as E1.
  pose proof (N.div_mod (n / 10 / 10) 10 ltac:(lia)) as E2.
  assert (n mod 10 < 10)%N as M0 by (apply N.mod_lt; lia).
  assert ((n / 10) mod 10 < 10)%N as M1 by (apply N.mod_lt; lia).
  assert ((n / 10 / 10) mod 10 < 10)%N as M2 by (apply N.mod_lt; lia).
  assert ((n / 10 / 10 / 10) mod 10 = n / 10 / 10 / 10)%N as M3
    by (apply N.mod_small; lia).
  rewrite M3.
  unfold JS.array_index.
  replace (Ascii.eqb (pretty_N_char (n / 10 / 10 / 10)) "0") with false.
  2:{ symmetry. apply Ascii.eqb_neq. intros E.
      apply (pretty_N_char_inj _ 0%N) in E; lia. }
  cbn [andb JS.digits_value]. rewrite !is_digit_pretty_N_char.
  rewrite !N_of_ascii_pretty_N_char by lia.
  set (a := (n / 10 / 10 / 10)%N) in *. set (b := ((n / 10 / 10) mod 10)%N) in *.
  set (c := ((n / 10) mod 10)%N) in *. set (e := (n mod 10)%N) in *.
  set (q1 := (n / 10)%N) in *. set (q2 := (q1 / 10)%N) in *.
  assert (10 * (10 * (10 * (10 * 0 + a) + b) + c) + e = n)%N as -> by lia.
  destruct (n <? 2 ^ 32 - 1)%N eqn:E; [reflexivity|].
  apply N.ltb_ge in E. change (2 ^ 32 - 1)%N with 4294967295%N in E. lia.
Qed.

#[local] Instance index_le_total {A} : Total (@JS.index_le A).
Proof. intros a b. unfold JS.index_le. lia. Qed.

(** The host is sent the names in the order of [Object.values]:
    records under numeric keys by ascending key, not in join order.
    Every generated key is numeric; so of two online players holding
    numeric keys, the one with the smaller key is named first even if it
    joined second. *)
Theorem numeric_keys_listed_ascending rooms rid r h k1 k2 p1 p2 i1 i2 :
  rooms !! rid = Some r ->
  hostSocketId r = Some h ->
  players r = [(k1, p1); (k2, p2)] ->
  socketId p1 <> None ->
  socketId p2 <> None ->
  JS.array_index k1 = Some i1 ->
  JS.array_index k2 = Some i2 ->
  (i2 < i1)%N ->
  emitPlayersUpdate rooms rid
  = [Emit (to_socket h) (room_playersUpdate [name p2; name p1])] /\
  (forall random, exists n, (1000 <= n <= 9999)%N /\
                  JS.array_index (generateSecretKey random) = Some n).
Proof.
  intros Hr Hh Hps Hs1 Hs2 H1 H2 Hlt. split; [|apply array_index_generateSecretKey].
  unfold emitPlayersUpdate. rewrite Hr, Hh. do 3 f_equal.
  unfold online_names, JS.Object_values. rewrite Hps.
  cbn [JS.indexed JS.named]. rewrite H1, H2.
  pose proof (merge_sort_Permutation (@JS.index_le Player) [(i1, p1); (i2, p2)]) as Hp.
  pose proof (Sorted_merge_sort (@JS.index_le Player) [(i1, p1); (i2, p2)]) as Hs.
  symmetry in Hp. apply Permutation_length_2_inv in Hp as [E|E]; rewrite E in *.
  - exfalso. inversion Hs as [|? ? _ Hhd]; subst. inversion Hhd as [|? ? Hle]; subst.
    unfold JS.index_le in Hle. cbn in Hle. lia.
  - cbn. unfold online.
    destruct (socketId p1); [|contradiction]. destruct (socketId p2); [|contradiction].
    reflexivity.
Qed.

End Server.

(** ** The scenarios, run *)

Local Abbreviation S0 := JS.StringToNumber_decimal.
Local Abbreviation O0 := JS.ObjectToNumber_plain.
Local Abbreviation state_R1 := (run S0 O0 init scenario_R1).

Example scenario_R1_state :
  state_R1
  = {| rooms := {[ "R1" := room_R1 (Some 1%N) ]};
       sockets := {[ 1%N := {| role := Some role_host; data_roomId := Some "R1";
                               data_secretKey := None |};
                     2%N := {| role := Some role_player; data_roomId := Some "R1";
                               data_secretKey := Some "5500" |} ]} |}.
Proof. vm_compute. reflexivity. Qed.

Lemma state_R1_reachable : reachable S0 O0 state_R1.
Proof. apply reachable_run, reachable_init. Qed.

Lemma state_R1_reachable_own : reachable_own S0 O0 state_R1.
Proof.
  apply reachable_own_run; [apply reachable_own_init | vm_compute; reflexivity].
Qed.

(** After the host of ["R1"] left. *)
Local Abbreviation state_R1_away := (run S0 O0 init (scenario_R1 ++ [(1%N, Disconnect)])).

Example state_R1_away_room :
  rooms state_R1_away !! "R1" = Some (room_R1 None).
Proof. vm_compute. reflexivity. Qed.

(** Alice's first join: a generated key, [rejoin: false], no card. *)
Example Alice_joins :
  (step S0 O0 (run S0 O0 init (take 1 scenario_R1)) 2%N
        (PlayerJoinRoom "R1" (Some "Alice") None half)).2
  = [Emit (to_socket 1%N) (room_playersUpdate ["Alice"]);
     Callback (OkJoin "Alice" "5500" false JS.VNull
                      {| summary_roomId := "R1";
                         summary_minNumber := JS.of_Z 1;
                         summary_maxNumber := JS.of_Z 75;
                         summary_drawnNumbers := [] |})].
Proof. vm_compute. reflexivity. Qed.

(** Alice's socket closes and she comes back on socket 5 with her key:
    [rejoin: true], her card, and the draw history so far. *)
Example Alice_rejoins :
  (step S0 O0 (run S0 O0 init (scenario_R1 ++ [(2%N, Disconnect)])) 5%N
        (PlayerJoinRoom "R1" (Some "Alice") (Some "5500") 0%N)).2
  = [Emit (to_socket 1%N) (room_playersUpdate ["Alice"]);
     Callback (OkJoin "Alice" "5500" true card_Alice
                      {| summary_roomId := "R1";
                         summary_minNumber := JS.of_Z 1;
                         summary_maxNumber := JS.of_Z 75;
                         summary_drawnNumbers := [JS.of_Z 17] |})].
Proof. vm_compute. reflexivity. Qed.

(** The host draws 17 again, as the text ["17"], then 42. *)
Example draws_17_17_42 :
  drawnNumbers <$>
    rooms (run S0 O0 state_R1
               [(1%N, HostDrawNumber "R1" (JS.VStr "17") true);
                (1%N, HostDrawNumber "R1" (JS.VNum (JS.of_Z 42)) false)]) !! "R1"
  = Some [JS.of_Z 17; JS.of_Z 42].
Proof. vm_compute. reflexivity. Qed.

Example Object_values_order :
  JS.Object_values [("zed", 1); ("20", 2); ("3", 3); ("07", 4); ("abc", 5)]
  = [3; 2; 1; 4; 5].
Proof. vm_compute. reflexivity. Qed.

Example trim_example : JS.trim "  R1 " = "R1" /\ JS.trim "   " = "".
Proof. split; reflexivity. Qed.

(** Generated keys at the ends of the range, at the draw 0.5, and at a
    draw where the rounding of the sum decides the key: the exact value
    of [1000 + k * 9000 / 2^53] lies below 1025 and the binary64 sum
    is 1025. *)
Example generateSecretKey_examples :
  generateSecretKey 0 = "1000" /\
  generateSecretKey (2 ^ 53 - 1) = "9999" /\
  generateSecretKey half = "5500" /\
  generateSecretKey 25019997929836 = "1025" /\
  (1000 + 25019997929836 * 9000 / 2 ^ 53)%N = 1024%N.
Proof. repeat split; vm_compute; reflexivity. Qed.

(** *** Instances *)

Lemma drawnNumbers_append_only_witness :
  reachable S0 O0 state_R1 /\
  rooms state_R1 !! "R1" = Some (room_R1 (Some 1%N)) /\
  exists r',
    rooms (step S0 O0 state_R1 1%N (HostDrawNumber "R1" (JS.VNum (JS.of_Z 42)) true)).1 !! "R1"
    = Some r' /\
    JS.extends [JS.of_Z 17] (drawnNumbers r').
Proof.
  assert (rooms state_R1 !! "R1" = Some (room_R1 (Some 1%N))) as Hr
    by (vm_compute; reflexivity).
  split; [exact state_R1_reachable|]. split; [exact Hr|].
  destruct (drawnNumbers_append_only S0 O0 state_R1 "R1" _ state_R1_reachable Hr)
    as (_ & _ & Hstep & _).
  destruct (Hstep 1%N (HostDrawNumber "R1" (JS.VNum (JS.of_Z 42)) true))
    as (r' & H1 & _ & H2 & _).
  exists r'. split; [exact H1|]. apply H2. intros [[] _].
Defined.

Lemma drawNumber_twice_witness :
  drawnNumbers <$>
    rooms (host_drawNumber S0 O0
             (host_drawNumber S0 O0 state_R1 1%N "R1" (JS.VStr "17") true).1
             1%N "R1" (JS.VStr "17") true).1 !! "R1"
  = Some [JS.of_Z 17].
Proof.
  assert (rooms state_R1 !! "R1" = Some (room_R1 (Some 1%N))) as Hr
    by (vm_compute; reflexivity).
  destruct (drawNumber_twice S0 O0 state_R1 1%N "R1" _ (JS.VStr "17") true true
              state_R1_reachable Hr eq_refl eq_refl)
    as ((r1 & Hr1 & Hext & Heq & _) & _).
  rewrite Heq. vm_compute. reflexivity.
Defined.

Lemma createRoom_rejoin_witness :
  exists r',
    (host_createRoom S0 O0 state_R1_away 7%N (Some "R1")
                     (JS.VStr "1") (JS.VStr "90") []).2
    = [Emit (to_socket 7%N) (room_playersUpdate ["Alice"]); Callback (OkRoom true r')] /\
    drawnNumbers r' = [JS.of_Z 17] /\
    players r' = [("5500", Alice (Some 2%N))] /\
    hostSocketId r' = Some 7%N /\
    maxNumber r' = JS.of_Z 90.
Proof.
  destruct (createRoom_rejoin S0 O0 state_R1_away 7%N "R1" (room_R1 None)
              (JS.VStr "1") (JS.VStr "90") [])
    as (r' & E & Hh & Hmin & Hmax & Hd & Hp & _).
  - apply reachable_run, reachable_init.
  - vm_compute; reflexivity.
  - reflexivity.
  - vm_compute; reflexivity.
  - exists r'. rewrite E. cbn [snd]. repeat split; assumption.
Defined.


Lemma drawNumber_not_host_witness :
  hostSocketId (room_R1 (Some 1%N)) <> Some 2%N /\
  host_drawNumber S0 O0 state_R1 2%N "R1" (JS.VNum (JS.of_Z 42)) true
  = (state_R1, [Callback (Fail (Some NotHostError))]).
Proof.
  assert (hostSocketId (room_R1 (Some 1%N)) <> Some 2%N) as Hh by (cbn; congruence).
  split; [exact Hh|].
  apply (drawNumber_not_host S0 O0 state_R1 2%N "R1" (room_R1 (Some 1%N))).
  - vm_compute; reflexivity.
  - exact Hh.
Defined.

Lemma createRoom_host_present_witness :
  host_createRoom S0 O0 state_R1 3%N (Some "R1") (JS.VNum (JS.of_Z 1)) (JS.VNum (JS.of_Z 30)) []
  = (state_R1, [Callback (Fail (Some HostAlreadyPresentError))]).
Proof.
  destruct (createRoom_host_present S0 O0 state_R1 3%N "R1"
              (room_R1 (Some 1%N)) 1%N (JS.VNum (JS.of_Z 1)) (JS.VNum (JS.of_Z 30)) [])
    as (_ & H).
  - exact state_R1_reachable.
  - vm_compute; reflexivity.
  - reflexivity.
  - discriminate.
  - apply H. vm_compute; reflexivity.
Defined.

Lemma createRoom_invalid_range_witness :
  JS.gt (JS.of_Z 75) (JS.of_Z 1) = true /\
  host_createRoom S0 O0 state_R1 3%N (Some "R2") (JS.VNum (JS.of_Z 75)) (JS.VNum (JS.of_Z 1)) []
  = (state_R1, [Callback (Fail (Some InvalidRangeError))]).
Proof.
  split; [vm_compute; reflexivity|].
  apply createRoom_invalid_range. right. right. vm_compute; reflexivity.
Defined.

Lemma disconnect_frame_witness :
  (exists r',
     rooms (disconnect state_R1 1%N).1 !! "R1" = Some r' /\
     hostSocketId r' = None /\
     drawnNumbers r' = [JS.of_Z 17] /\
     players r' = [("5500", Alice (Some 2%N))]) /\
  (exists r',
     rooms (disconnect state_R1 2%N).1 !! "R1" = Some r' /\
     JS.get (players r') "5500" = Some (Alice None) /\
     drawnNumbers r' = [JS.of_Z 17]) /\
  disconnect state_R1 5%N = (state_R1, []).
Proof.
  destruct (disconnect_frame state_R1 1%N) as (Hhost & _ & _).
  destruct (disconnect_frame state_R1 2%N) as (_ & Hplayer & _).
  destruct (disconnect_frame state_R1 5%N) as (_ & _ & Hnone).
  split; [|split].
  - destruct (Hhost "R1" (room_R1 (Some 1%N))) as (r' & E & Hh & _ & _ & _ & Hd & Hp);
      [vm_compute; reflexivity | vm_compute; reflexivity | discriminate
      | vm_compute; reflexivity |].
    exists r'. rewrite E. cbn [fst rooms]. rewrite lookup_insert_eq.
    repeat split; assumption.
  - destruct (Hplayer "R1" (room_R1 (Some 1%N)) "5500" (Alice (Some 2%N)))
      as (r' & E & Hget & _ & _ & _ & _ & _ & _ & Hd);
      [vm_compute; reflexivity | vm_compute; reflexivity | discriminate
      | vm_compute; reflexivity | vm_compute; reflexivity | vm_compute; reflexivity |].
    exists r'. rewrite E. cbn [fst rooms]. rewrite lookup_insert_eq.
    repeat split; assumption.
  - apply Hnone. left. vm_compute; reflexivity.
Defined.

Lemma drawNumber_coerces_witness :
  host_drawNumber S0 O0 state_R1 1%N "R1" (JS.VStr " 42 ") true
  = ({| rooms := <["R1" := set_drawnNumbers (room_R1 (Some 1%N)) [JS.of_Z 17; JS.of_Z 42]]>
                   (rooms state_R1);
        sockets := sockets state_R1 |},
     [Emit (to_room "R1") (number_drawn (JS.of_Z 42) [JS.of_Z 17; JS.of_Z 42]);
      Callback Ok]) /\
  host_drawNumber S0 O0 state_R1 1%N "R1" (JS.VStr "forty-two") true
  = (state_R1, [Callback (Fail (Some InvalidNumberError))]) /\
  host_drawNumber S0 O0 state_R1 1%N "R1" JS.VUndefined true
  = (state_R1, [Callback (Fail (Some InvalidNumberError))]).
Proof.
  assert (rooms state_R1 !! "R1" = Some (room_R1 (Some 1%N))) as Hr
    by (vm_compute; reflexivity).
  split; [|split].
  - destruct (drawNumber_coerces S0 O0 state_R1 1%N "R1" _ (JS.VStr " 42 ") true Hr eq_refl)
      as (Hacc & _).
    rewrite Hacc by (vm_compute; reflexivity). reflexivity.
  - destruct (drawNumber_coerces S0 O0 state_R1 1%N "R1" _ (JS.VStr "forty-two") true Hr eq_refl)
      as (_ & Hrej & _).
    apply Hrej. vm_compute; reflexivity.
  - destruct (drawNumber_coerces S0 O0 state_R1 1%N "R1" _ JS.VUndefined true Hr eq_refl)
      as (_ & Hrej & _).
    apply Hrej. reflexivity.
Defined.


(** *** Where the handlers do not check a generated identifier *)

Local Abbreviation state_abc123 := (run S0 O0 init scenario_abc123).

(** C1 as stated fails: a generated room id that is already taken makes
    [host:createRoom] store a new room under it, and the draw history
    kept under that id is gone. *)
Lemma drawnNumbers_lost_on_id_collision :
  random_toString36 [10; 11; 12; 1; 2; 3; 7; 20; 5; 33; 9]%N = "0.abc1237k5x9" /\
  random_roomId [10; 11; 12; 1; 2; 3; 7; 20; 5; 33; 9]%N = "abc123" /\
  reachable S0 O0 state_abc123 /\
  drawnNumbers <$> rooms state_abc123 !! "abc123" = Some [JS.of_Z 17] /\
  drawnNumbers <$> rooms (step S0 O0 state_abc123 2%N create_unnamed).1 !! "abc123"
  = Some [] /\
  ~ (forall st socket ev rid r,
       reachable S0 O0 st ->
       rooms st !! rid = Some r ->
       exists r', rooms (step S0 O0 st socket ev).1 !! rid = Some r' /\
                  JS.extends (drawnNumbers r) (drawnNumbers r')).
Proof.
  assert (reachable S0 O0 state_abc123) as Hreach
    by apply reachable_run, reachable_init.
  assert (drawnNumbers <$> rooms (step S0 O0 state_abc123 2%N create_unnamed).1 !! "abc123"
          = Some []) as Hafter by (vm_compute; reflexivity).
  split; [reflexivity|]. split; [reflexivity|]. split; [exact Hreach|].
  split; [vm_compute; reflexivity|]. split; [exact Hafter|].
  intros Hclaim.
  destruct (rooms state_abc123 !! "abc123") as [r|] eqn:Hr;
    [|vm_compute in Hr; discriminate].
  assert (drawnNumbers r = [JS.of_Z 17]) as Hd.
  { vm_compute in Hr. injection Hr as <-. vm_compute. reflexivity. }
  destruct (Hclaim state_abc123 2%N create_unnamed "abc123" r Hreach Hr)
    as (r' & Hr' & Hext).
  rewrite Hr' in Hafter. cbn in Hafter. injection Hafter as Hnil.
  rewrite Hd, Hnil in Hext.
  destruct Hext as [E|(n & _ & E)]; [discriminate E | discriminate E].
Qed.


(** *** Where a room has the empty id *)

Local Abbreviation state_empty_id := (run S0 O0 init (take 1 scenario_empty_id)).
Local Abbreviation state_empty_id_joined := (run S0 O0 init scenario_empty_id).
Local Abbreviation state_empty_id_rebound :=
  (run S0 O0 init
       (scenario_empty_id ++ [(3%N, PlayerJoinRoom "" (Some "Bob") (Some "5500") 0%N)])).

Local Abbreviation room_empty_id :=
  {| roomId := ""; hostSocketId := Some 1%N;
     minNumber := JS.of_Z 1; maxNumber := JS.of_Z 75;
     drawnNumbers := []; players := [] |}.

(** C6 as stated fails: the room stored under the empty id has a bound
    host, and [host:createRoom] with that id is a request without id.
    It is not refused: it stores a room under a generated id, and it
    stores it over the room when the generated id is empty again. *)
Lemma createRoom_empty_id_not_refused :
  random_toString36 [] = "0" /\
  random_roomId [] = "" /\
  reachable S0 O0 state_empty_id /\
  rooms state_empty_id !! "" = Some room_empty_id /\
  host_createRoom S0 O0 state_empty_id 2%N (Some "")
                  (JS.VNum (JS.of_Z 1)) (JS.VNum (JS.of_Z 30)) [10; 11; 12; 1; 2; 3]%N
  = ({| rooms := {[ "" := room_empty_id;
                    "abc123" := {| roomId := "abc123"; hostSocketId := Some 2%N;
                                   minNumber := JS.of_Z 1; maxNumber := JS.of_Z 30;
                                   drawnNumbers := []; players := [] |} ]};
        sockets := {[ 1%N := {| role := Some role_host; data_roomId := Some "";
                                data_secretKey := None |};
                      2%N := {| role := Some role_host; data_roomId := Some "abc123";
                                data_secretKey := None |} ]} |},
     [Callback (OkRoom false {| roomId := "abc123"; hostSocketId := Some 2%N;
                                minNumber := JS.of_Z 1; maxNumber := JS.of_Z 30;
                                drawnNumbers := []; players := [] |})]) /\
  rooms (host_createRoom S0 O0 state_empty_id 2%N (Some "")
                         (JS.VNum (JS.of_Z 1)) (JS.VNum (JS.of_Z 30)) []).1 !! ""
  = Some {| roomId := ""; hostSocketId := Some 2%N;
            minNumber := JS.of_Z 1; maxNumber := JS.of_Z 30;
            drawnNumbers := []; players := [] |} /\
  ~ (forall st socket rid r h mn mx random,
       reachable S0 O0 st ->
       rooms st !! rid = Some r ->
       hostSocketId r = Some h ->
       (host_createRoom S0 O0 st socket (Some rid) mn mx random).1 = st).
Proof.
  assert (reachable S0 O0 state_empty_id) as Hreach
    by apply reachable_run, reachable_init.
  assert (rooms state_empty_id !! "" = Some room_empty_id) as Hr
    by (vm_compute; reflexivity).
  split; [reflexivity|]. split; [reflexivity|]. split; [exact Hreach|].
  split; [exact Hr|]. split; [vm_compute; reflexivity|].
  split; [vm_compute; reflexivity|].
  intros Hclaim.
  specialize (Hclaim state_empty_id 2%N "" room_empty_id 1%N
                (JS.VNum (JS.of_Z 1)) (JS.VNum (JS.of_Z 30)) [] Hreach Hr eq_refl).
  apply (f_equal (fun st => hostSocketId <$> rooms st !! "")) in Hclaim.
  vm_compute in Hclaim. discriminate Hclaim.
Qed.

(** C8 as stated fails: socket 1 is the bound host of the room with the
    empty id, and its [socket.data] records the role of host and the
    room id [""]; [disconnect] returns at [!roomId] and the room keeps
    socket 1 as host.  The same holds of socket 2, a player of that
    room: its record keeps its [socketId] and nothing is sent. *)
Lemma disconnect_empty_room_id :
  reachable S0 O0 state_empty_id_joined /\
  data_of state_empty_id_joined 1%N
  = {| role := Some role_host; data_roomId := Some ""; data_secretKey := None |} /\
  data_of state_empty_id_joined 2%N
  = {| role := Some role_player; data_roomId := Some "";
       data_secretKey := Some "5500" |} /\
  rooms state_empty_id_joined !! ""
  = Some {| roomId := ""; hostSocketId := Some 1%N;
            minNumber := JS.of_Z 1; maxNumber := JS.of_Z 75;
            drawnNumbers := [];
            players := [("5500", {| name := "Alice"; secretKey := "5500";
                                    socketId := Some 2%N;
                                    cardNumbers := JS.VNull |})] |} /\
  disconnect state_empty_id_joined 1%N = (state_empty_id_joined, []) /\
  disconnect state_empty_id_joined 2%N = (state_empty_id_joined, []) /\
  ~ (forall st socket rid r,
       reachable S0 O0 st ->
       role (data_of st socket) = Some role_host ->
       data_roomId (data_of st socket) = Some rid ->
       rooms st !! rid = Some r ->
       exists r', rooms (disconnect st socket).1 !! rid = Some r' /\
                  hostSocketId r' = None).
Proof.
  assert (reachable S0 O0 state_empty_id_joined) as Hreach
    by apply reachable_run, reachable_init.
  assert (disconnect state_empty_id_joined 1%N = (state_empty_id_joined, [])) as Hdis
    by (vm_compute; reflexivity).
  split; [exact Hreach|]. split; [vm_compute; reflexivity|].
  split; [vm_compute; reflexivity|]. split; [vm_compute; reflexivity|].
  split; [exact Hdis|]. split; [vm_compute; reflexivity|].
  intros Hclaim.
  destruct (rooms state_empty_id_joined !! "") as [r|] eqn:Hr;
    [|vm_compute in Hr; discriminate Hr].
  assert (hostSocketId r = Some 1%N) as Hh.
  { vm_compute in Hr. injection Hr as <-. reflexivity. }
  destruct (Hclaim state_empty_id_joined 1%N "" r Hreach) as (r' & Hr' & Hnone);
    [vm_compute; reflexivity | vm_compute; reflexivity | exact Hr |].
  rewrite Hdis in Hr'. cbn [fst] in Hr'. congruence.
Qed.


(** *** Instances for the further properties *)

Local Abbreviation draw42_by_2 := (HostDrawNumber "R1" (JS.VNum (JS.of_Z 42)) true).

Lemma failed_ack_no_mutation_witness :
  (step S0 O0 state_R1 2%N draw42_by_2).1 = state_R1 /\
  (step S0 O0 state_R1 2%N draw42_by_2).2 = [Callback (Fail (Some NotHostError))].
Proof.
  apply (failed_ack_no_mutation S0 O0 state_R1 2%N draw42_by_2 (Some NotHostError)).
  vm_compute. left. reflexivity.
Defined.

Lemma rooms_never_deleted_witness :
  is_Some (rooms (run S0 O0 state_R1 [(1%N, Disconnect); (2%N, Disconnect)]) !! "R1").
Proof.
  apply (rooms_never_deleted S0 O0 [(1%N, Disconnect); (2%N, Disconnect)] state_R1 "R1").
  exists (room_R1 (Some 1%N)). vm_compute. reflexivity.
Defined.

Lemma players_only_grow_witness :
  exists r',
    rooms (run S0 O0 state_R1 [(3%N, PlayerJoinRoom "R1" (Some "Bob") None 0%N)]) !! "R1"
    = Some r' /\
    ["5500"] `prefix_of` (players r').*1.
Proof.
  apply (players_only_grow S0 O0 [(3%N, PlayerJoinRoom "R1" (Some "Bob") None 0%N)]
           state_R1 "R1" (room_R1 (Some 1%N))).
  - vm_compute. reflexivity.
  - split; [intros H; exact H | exact I].
Defined.

Lemma card_kept_witness :
  exists r' p',
    rooms (run S0 O0 state_R1
               [(2%N, Disconnect);
                (5%N, PlayerJoinRoom "R1" (Some "Alice") (Some "5500") 0%N)]) !! "R1"
    = Some r' /\
    JS.get (players r') "5500" = Some p' /\
    secretKey p' = "5500" /\
    cardNumbers p' = card_Alice.
Proof.
  apply (card_kept S0 O0
           [(2%N, Disconnect);
            (5%N, PlayerJoinRoom "R1" (Some "Alice") (Some "5500") 0%N)]
           state_R1 "R1" (room_R1 (Some 1%N)) "5500" (Alice (Some 2%N))).
  - vm_compute. reflexivity.
  - reflexivity.
  - split; [intros H; exact H|]. split; [intros c cb; discriminate|].
    split; [intros H; exact H|]. split; [intros c cb; discriminate | exact I].
Defined.

Lemma reachable_room_wf_witness :
  roomId (room_R1 (Some 1%N)) = "R1" /\
  JS.isFinite (JS.of_Z 1) = true /\
  JS.isFinite (JS.of_Z 75) = true /\
  JS.gt (JS.of_Z 1) (JS.of_Z 75) = false /\
  Forall (fun n => JS.isFinite n = true) [JS.of_Z 17].
Proof.
  apply (reachable_room_wf S0 O0 state_R1 "R1" (room_R1 (Some 1%N))).
  - exact state_R1_reachable.
  - vm_compute. reflexivity.
Defined.

Lemma reachable_players_wf_witness :
  List.NoDup ["5500"] /\
  JS.get (players (room_R1 (Some 1%N))) "5500" = Some (Alice (Some 2%N)).
Proof.
  destruct (reachable_players_wf S0 O0 state_R1 "R1" (room_R1 (Some 1%N)))
    as (Hnd & _ & Hget).
  - exact state_R1_reachable_own.
  - vm_compute. reflexivity.
  - split; [exact Hnd|]. apply Hget; [reflexivity | left; reflexivity].
Defined.

Local Abbreviation draw42 := (HostDrawNumber "R1" (JS.VNum (JS.of_Z 42)) true).

Lemma history_changes_only_by_host_witness :
  (exists number callback,
     draw42 = HostDrawNumber "R1" number callback /\
     hostSocketId (room_R1 (Some 1%N)) = Some 1%N /\
     JS.isFinite (Number S0 O0 number) = true /\
     JS.includes [JS.of_Z 17] (Number S0 O0 number) = false /\
     [JS.of_Z 17; JS.of_Z 42] = [JS.of_Z 17] ++ [Number S0 O0 number]) \/
  (replaces_room S0 O0 "R1" draw42 /\ [JS.of_Z 17; JS.of_Z 42] = []).
Proof.
  apply (history_changes_only_by_host S0 O0 state_R1 1%N draw42 "R1"
           (room_R1 (Some 1%N))
           (set_drawnNumbers (room_R1 (Some 1%N)) [JS.of_Z 17; JS.of_Z 42])).
  - vm_compute. reflexivity.
  - vm_compute. reflexivity.
  - intros H. vm_compute in H. discriminate H.
Defined.

Lemma host_binding_changes_witness :
  (exists requested mn mx random,
     Disconnect = HostCreateRoom requested mn mx random /\
     invalid_range (Number S0 O0 mn) (Number S0 O0 mx) = false /\
     hostSocketId (room_R1 None) = Some 1%N) \/
  (Disconnect = Disconnect /\
   role (data_of state_R1 1%N) = Some role_host /\
   data_roomId (data_of state_R1 1%N) = Some "R1" /\
   hostSocketId (room_R1 None) = None).
Proof.
  apply (host_binding_changes S0 O0 state_R1 1%N Disconnect "R1"
           (room_R1 (Some 1%N)) (room_R1 None)).
  - vm_compute. reflexivity.
  - vm_compute. reflexivity.
  - discriminate.
Defined.


(** The scenario of the card: Alice joins without a key, saves her
    card, the host draws, her socket closes, and she joins again with
    her key on socket 5. *)
Lemma saved_card_returned_witness :
  exists r' effs,
    rooms (run S0 O0
               (player_saveCard (run S0 O0 init (take 2 scenario_R1))
                                "R1" "5500" card_Alice true).1
               [(1%N, HostDrawNumber "R1" (JS.VNum (JS.of_Z 17)) true);
                (2%N, Disconnect)]) !! "R1" = Some r' /\
    (player_joinRoom
       (run S0 O0
            (player_saveCard (run S0 O0 init (take 2 scenario_R1))
                             "R1" "5500" card_Alice true).1
            [(1%N, HostDrawNumber "R1" (JS.VNum (JS.of_Z 17)) true);
             (2%N, Disconnect)])
       5%N "R1" (Some "Alice") (Some "5500") 0%N).2
    = effs ++ [Callback (OkJoin "Alice" "5500" true card_Alice (summary_of "R1" r'))].
Proof.
  apply (saved_card_returned S0 O0 (run S0 O0 init (take 2 scenario_R1)) "R1"
           {| roomId := "R1"; hostSocketId := Some 1%N;
              minNumber := JS.of_Z 1; maxNumber := JS.of_Z 75;
              drawnNumbers := [];
              players := [("5500", {| name := "Alice"; secretKey := "5500";
                                      socketId := Some 2%N;
                                      cardNumbers := JS.VNull |})] |}
           "5500"
           {| name := "Alice"; secretKey := "5500"; socketId := Some 2%N;
              cardNumbers := JS.VNull |}
           card_Alice true
           [(1%N, HostDrawNumber "R1" (JS.VNum (JS.of_Z 17)) true); (2%N, Disconnect)]
           5%N (Some "Alice") "Alice" (Some "5500") 0%N).
  - vm_compute. reflexivity.
  - reflexivity.
  - reflexivity.
  - split; [intros H; exact H|]. split; [intros c cb; discriminate|].
    split; [intros H; exact H|]. split; [intros c cb; discriminate | exact I].
  - vm_compute. reflexivity.
  - reflexivity.
Defined.

Local Abbreviation create_R2 :=
  (HostCreateRoom (Some "R2") (JS.VNum (JS.of_Z 1)) (JS.VNum (JS.of_Z 10)) []).

(** The host of ["R1"] creates ["R2"] on the same socket, then leaves:
    ["R1"] keeps socket 1 as host. *)
Lemma host_moves_on_witness :
  rooms (disconnect (step S0 O0 state_R1 1%N create_R2).1 1%N).1 !! "R1"
  = Some (room_R1 (Some 1%N)) /\
  (host_createRoom S0 O0 (disconnect (step S0 O0 state_R1 1%N create_R2).1 1%N).1
                   9%N (Some "R1") (JS.VNum (JS.of_Z 1)) (JS.VNum (JS.of_Z 75)) []).2
  = [Callback (Fail (Some HostAlreadyPresentError))].
Proof.
  destruct (host_moves_on S0 O0 state_R1 1%N create_R2 "R1" (room_R1 (Some 1%N)) "R2")
    as [H1 H2].
  - vm_compute. reflexivity.
  - reflexivity.
  - intros H. vm_compute in H. discriminate H.
  - vm_compute. reflexivity.
  - discriminate.
  - split; [exact H1|].
    apply (H2 9%N (Some "R1") (JS.VNum (JS.of_Z 1)) (JS.VNum (JS.of_Z 75)) []);
      [reflexivity | vm_compute; reflexivity].
Defined.


Lemma socket_data_names_room_witness :
  exists rid,
    Some "R1" = Some rid /\ is_Some (rooms state_R1 !! rid).
Proof.
  apply (socket_data_names_room S0 O0 state_R1 2%N
           {| role := Some role_player; data_roomId := Some "R1";
              data_secretKey := Some "5500" |} role_player).
  - exact state_R1_reachable_own.
  - vm_compute. reflexivity.
  - reflexivity.
Defined.


(** Bob joined after Alice and drew the key ["1000"]: he is named
    before her. *)
Lemma numeric_keys_listed_ascending_witness :
  emitPlayersUpdate
    (rooms (run S0 O0 state_R1 [(3%N, PlayerJoinRoom "R1" (Some "Bob") None 0%N)])) "R1"
  = [Emit (to_socket 1%N) (room_playersUpdate ["Bob"; "Alice"])].
Proof.
  destruct (numeric_keys_listed_ascending
              (rooms (run S0 O0 state_R1 [(3%N, PlayerJoinRoom "R1" (Some "Bob") None 0%N)]))
              "R1"
              {| roomId := "R1"; hostSocketId := Some 1%N;
                 minNumber := JS.of_Z 1; maxNumber := JS.of_Z 75;
                 drawnNumbers := [JS.of_Z 17];
                 players := [("5500", Alice (Some 2%N));
                             ("1000", {| name := "Bob"; secretKey := "1000";
                                         socketId := Some 3%N;
                                         cardNumbers := JS.VNull |})] |}
              1%N "5500" "1000"
              (Alice (Some 2%N))
              {| name := "Bob"; secretKey := "1000"; socketId := Some 3%N;
                 cardNumbers := JS.VNull |}
              5500%N 1000%N) as [H _].
  - vm_compute. reflexivity.
  - reflexivity.
  - reflexivity.
  - discriminate.
  - discriminate.
  - reflexivity.
  - reflexivity.
  - reflexivity.
  - exact H.
Defined.
